(** * mk_links.py: picon link derivation and reconciliation

    A shallow embedding of [LinkMaker] from [mk_links.py]: the icon
    inventory scan ([_makePiconFileList]), the scan of the existing links
    ([_cleanWrongLinks]), the expansion of service references
    ([makeLinks], lines 209-236), the per-target reconciliation
    ([makeLinks], lines 238-290) and the end-of-run cleanup ([clean]).

    Modelling conventions.
    - Strings are ASCII [string]s; names in the output directory are keys
      of a [gmap]; a path [path.join(piconPath, name)] is identified with
      [name] (the directory is flat).
    - A filesystem entry is a regular file (with its (device, inode)
      identity), a symbolic link (with what [stat] resolves it to), or
      another object (directory or special file).  The hard-link count of
      an inode is computed: the names outside the output and icon
      directories ([ext]), plus the regular entries of the icon directory
      and of the output directory that carry it.
    - [os.remove] fails on a read-only output directory, on a missing
      name and on a directory; [os.link] fails on a read-only directory,
      an existing name and across devices; [os.symlink] fails on a
      read-only directory and an existing name.
    - A Python exception escaping [makeLinks] ends the run ([RRaise]);
      [exit(1)] from a handler ends it too ([RExit]).
    - [listdir] order of the output directory is the order of
      [map_to_list]; that of the icon directory is the list order.
    - The unused-icon report ([checkUnused]) is the sorted list of the
      icon names it prints; the contents of [index.html] are the list of
      the pieces [makeHtmlIndex] writes; the page title comes from
      [piconSet] as the constructor computes it.
    - Not modelled: option parsing and [copyImages]; and the two exits
      of the constructor before the link scan, when the service reference
      file cannot be opened and when [_makePiconFileList] cannot list the
      icon directory ([Can't process image directory]): a modelled run is
      one in which both succeeded. *)

From Stdlib Require Import ZArith Ascii String List Bool Lia Sorted.
From stdpp Require Import base gmap sets list strings.
Import ListNotations.

Open Scope string_scope.

(** ** String helpers (Python [str] methods used by the script) *)

Module PyStr.

(** Python's [str.isspace] on ASCII: space, \t \n \v \f \r and \x1c-\x1f. *)
Definition is_space (c : ascii) : bool :=
  let n := nat_of_ascii c in
  (n =? 32)%nat || ((9 <=? n)%nat && (n <=? 13)%nat) || ((28 <=? n)%nat && (n <=? 31)%nat).

(** [s.split(c)]: always at least one piece. *)
Fixpoint split_on (c : ascii) (s : string) : list string :=
  match s with
  | EmptyString => [EmptyString]
  | String a s' =>
      let r := split_on c s' in
      if Ascii.eqb a c then EmptyString :: r
      else match r with
           | [] => [String a EmptyString]
           | x :: xs => String a x :: xs
           end
  end.

(** Splitting at every whitespace character. *)
Fixpoint split_ws (s : string) : list string :=
  match s with
  | EmptyString => [EmptyString]
  | String a s' =>
      let r := split_ws s' in
      if is_space a then EmptyString :: r
      else match r with
           | [] => [String a EmptyString]
           | x :: xs => String a x :: xs
           end
  end.

(** [s.split()]: runs of whitespace separate, no empty pieces. *)
Definition split (s : string) : list string :=
  filter (fun w => negb (String.eqb w "")) (split_ws s).

Fixpoint all_space (s : string) : bool :=
  match s with
  | EmptyString => true
  | String a s' => is_space a && all_space s'
  end.

(** [s.rstrip()]. *)
Fixpoint rstrip (s : string) : string :=
  match s with
  | EmptyString => EmptyString
  | String a s' => if all_space s then EmptyString else String a (rstrip s')
  end.

(** [s.strip()]. *)
Fixpoint lstrip (s : string) : string :=
  match s with
  | EmptyString => EmptyString
  | String a s' => if is_space a then lstrip s' else s
  end.

Definition strip (s : string) : string := rstrip (lstrip s).

(** [re.compile('#.*').sub('', line)] on a line without its newline:
    everything from the first [#] on is dropped. *)
Fixpoint strip_comment (s : string) : string :=
  match s with
  | EmptyString => EmptyString
  | String a s' => if Ascii.eqb a "#"%char then EmptyString else String a (strip_comment s')
  end.

(** [sep.join(l)]. *)
Definition join (sep : string) (l : list string) : string := String.concat sep l.

(** The last occurrence of [c] in [s]: the text before it and the text
    from it on ([s[:i]], [s[i:]] for [i = s.rfind(c)]). *)
Fixpoint rsplit_last (c : ascii) (s : string) : option (string * string) :=
  match s with
  | EmptyString => None
  | String a s' =>
      match rsplit_last c s' with
      | Some (pre, suf) => Some (String a pre, suf)
      | None => if Ascii.eqb a c then Some (EmptyString, s) else None
      end
  end.

Fixpoint all_dots (s : string) : bool :=
  match s with
  | EmptyString => true
  | String a s' => Ascii.eqb a "."%char && all_dots s'
  end.

(** [os.path.splitext] on a name without a separator: the extension
    starts at the last dot, unless only dots precede it. *)
Definition splitext (s : string) : string * string :=
  match rsplit_last "."%char s with
  | Some (pre, ext) => if all_dots pre then (s, "") else (pre, ext)
  | None => (s, "")
  end.

(** A name the directory scans keep: [path.splitext(name)[1] == ".png"]. *)
Definition is_png (s : string) : bool := String.eqb (snd (splitext s)) ".png".

End PyStr.

(** ** Python [int(s)] and [int(s, 16)] *)

Module PyInt.

Definition digit_val (c : ascii) : option Z :=
  let n := Z.of_nat (nat_of_ascii c) in
  if ((48 <=? n) && (n <=? 57))%Z then Some (n - 48)%Z
  else if ((97 <=? n) && (n <=? 102))%Z then Some (n - 87)%Z
  else if ((65 <=? n) && (n <=? 70))%Z then Some (n - 55)%Z
  else None.

Definition digit_in (base : Z) (c : ascii) : option Z :=
  match digit_val c with
  | Some d => if (d <? base)%Z then Some d else None
  | None => None
  end.

(** Digits with single underscores between them, read from the left with
    accumulator [acc]; [us] says an underscore was just read. *)
Fixpoint digits (base acc : Z) (us : bool) (s : string) : option Z :=
  match s with
  | EmptyString => if us then None else Some acc
  | String a s' =>
      if Ascii.eqb a "_"%char then (if us then None else digits base acc true s')
      else match digit_in base a with
           | Some d => digits base (acc * base + d) false s'
           | None => None
           end
  end.

(** A digit string: nonempty, no leading or trailing underscore; with
    [lead_us] one leading underscore is allowed (after a base prefix). *)
Definition digit_string (base : Z) (lead_us : bool) (s : string) : option Z :=
  match s with
  | EmptyString => None
  | String a s' =>
      if Ascii.eqb a "_"%char then
        (if lead_us then digits base 0 true s' else None)
      else digits base 0 false s
  end.

(** [int(s, base)] for base 10 and 16: surrounding whitespace, an
    optional sign, for base 16 an optional [0x]/[0X] prefix. *)
Definition py_int (base : Z) (s0 : string) : option Z :=
  let s := PyStr.strip s0 in
  let '(neg, s) :=
    match s with
    | String a s' =>
        if Ascii.eqb a "-"%char then (true, s')
        else if Ascii.eqb a "+"%char then (false, s') else (false, s)
    | EmptyString => (false, s)
    end in
  let '(pref, s) :=
    match s with
    | String z (String x s') =>
        if (base =? 16)%Z && Ascii.eqb z "0"%char
           && (Ascii.eqb x "x"%char || Ascii.eqb x "X"%char)
        then (true, s') else (false, s)
    | _ => (false, s)
    end in
  match digit_string base pref s with
  | Some v => Some (if neg then (- v)%Z else v)
  | None => None
  end.

Definition int10 := py_int 10.
Definition int16 := py_int 16.

End PyInt.

Import PyStr PyInt.

(** ** Options (the [options] dict of the script) *)

Record options := mkOptions {
  full : bool;
  short : bool;
  fold : bool;
  addfold : bool;
  useServiceNameLinks : bool;
  useHardLinks : bool;
  cleanAll : bool
}.

(** ** Expansion of a service reference into target names
    ([makeLinks], lines 210-236). *)

Module Expand.

Local Open Scope list_scope.

(** [(int(parts[0]) & ~0x0100) == 1]; [None] when [int] raises. *)
Definition ref_type_one (parts : list string) : option bool :=
  p0 ← nth_error parts 0;
  n ← int10 p0;
  Some (Z.eqb (Z.land n (Z.lnot 256)) 1).

Definition in_codes (v : Z) (codes : list Z) : bool := existsb (Z.eqb v) codes.

(** [servRefPartsFold = servRefParts[:]; servRefPartsFold[2] = v]; index 2
    exists wherever the script reaches this (it has just parsed it). *)
Definition set_stype (parts : list string) (v : string) : list string := <[2 := v]> parts.

(** The [addfold] block, lines 220-229, once its guard holds.  [srpf] is
    the Python local [servRefPartsFold], unbound ([None]) until first set;
    it keeps its value from one record to the next. *)
Definition addfold_block (parts : list string) (servRefs : list (list string))
    (srpf : option (list string)) : option (list (list string) * option (list string)) :=
  p2 ← nth_error parts 2;
  stype ← int16 p2;
  let '(servRefs, srpf) :=
    if negb (in_codes stype [1; 2; 10]%Z)
    then let f := set_stype parts "1" in (servRefs ++ [f], Some f)
    else (servRefs, srpf) in
  if in_codes stype [2; 10]%Z then
    p5 ← nth_error parts 5;
    v5 ← int16 p5;
    if in_codes v5 [4112; 12801]%Z then
      p3 ← nth_error parts 3;
      v3 ← int16 p3;
      if Z.eqb (Z.land v3 15) 15 then
        let f := set_stype parts (if Z.eqb stype 10 then "2" else "A") in
        Some (servRefs ++ [f], Some f)
      else Some (servRefs, srpf)
    else Some (servRefs, srpf)
  else Some (servRefs, srpf).

(** The [fold] block, lines 232-236, once its guard holds: the append is
    outside the [if], so it appends whatever [servRefPartsFold] holds,
    and raises [UnboundLocalError] when it was never set. *)
Definition fold_block (parts : list string) (servRefs : list (list string))
    (srpf : option (list string)) : option (list (list string) * option (list string)) :=
  p2 ← nth_error parts 2;
  stype ← int16 p2;
  let srpf := if negb (in_codes stype [1; 2; 10]%Z) then Some (set_stype parts "1") else srpf in
  f ← srpf;
  Some (servRefs ++ [f], srpf).

(** Lines 212-236: the list [servRefs] for one record, and the new value
    of [servRefPartsFold]; [None] when an exception is raised. *)
Definition expand (o : options) (parts : list string) (serviceName : string)
    (srpf : option (list string)) : option (list (list string) * option (list string)) :=
  let servRefs :=
    (if useServiceNameLinks o then [[serviceName]] else [])
    ++ (if full o || addfold o then [parts] else [])
    ++ (if short o then [firstn 1 parts ++ firstn 4 (skipn 3 parts)] else []) in
  match (if addfold o then
           match ref_type_one parts with
           | Some true => addfold_block parts servRefs srpf
           | Some false => Some (servRefs, srpf)
           | None => None
           end
         else Some (servRefs, srpf)) with
  | None => None
  | Some (servRefs, srpf) =>
      if fold o then
        match ref_type_one parts with
        | Some true => fold_block parts servRefs srpf
        | Some false => Some (servRefs, srpf)
        | None => None
        end
      else Some (servRefs, srpf)
  end.

(** [servRefName.split(':')[0:10]]. *)
Definition ref_parts (servRef : string) : list string := firstn 10 (split_on ":"%char servRef).

(** [servRefName = '_'.join(srp) + '.png']. *)
Definition target_name (srp : list string) : string := String.append (join "_" srp) ".png".

End Expand.

Import Expand.

(** ** The filesystem *)

Module FS.

(** [(st_dev, st_ino)]: what [getLinkRef] returns. *)
Definition ident : Type := (N * N)%type.

(** What [stat] finds behind a symbolic link. *)
Inductive stgt :=
| TFile (i : ident)
| TOther (i : ident)
| TDangling.

Inductive entry :=
| EReg (i : ident)
| ESym (t : stgt)
| EOther (i : ident) (is_dir : bool).

#[global] Instance stgt_eq_dec : EqDecision stgt.
Proof. solve_decision. Defined.
#[global] Instance entry_eq_dec : EqDecision entry.
Proof. solve_decision. Defined.

(** The parts of the filesystem a run does not change: the icon directory
    [piconPath/channel_picons] in [listdir] order, the number of names an
    inode has outside the two directories, the device of the output
    directory and whether the output directory is read-only. *)
Record env := mkEnv {
  chan_dir : list (string * entry);
  ext_links : ident -> nat;
  out_dev : N;
  out_ro : bool
}.

Definition cnt_out (out : gmap string entry) (i : ident) : nat :=
  size (filter (fun kv : string * entry => kv.2 = EReg i) out).

Definition cnt_chan (l : list (string * entry)) (i : ident) : nat :=
  length (List.filter (fun kv : string * entry => bool_decide (kv.2 = EReg i)) l).

(** [st_nlink] of an inode. *)
Definition nlink (E : env) (out : gmap string entry) (i : ident) : nat :=
  ext_links E i + cnt_chan (chan_dir E) i + cnt_out out i.

(** [stat(p)] follows symbolic links. *)
Definition stat_ident (e : entry) : option ident :=
  match e with
  | EReg i => Some i
  | ESym (TFile i) => Some i
  | ESym (TOther i) => Some i
  | ESym TDangling => None
  | EOther i _ => Some i
  end.

(** [path.isfile(p)] and, where it holds, [getLinkRef(p)]. *)
Definition file_ident (e : entry) : option ident :=
  match e with
  | EReg i => Some i
  | ESym (TFile i) => Some i
  | _ => None
  end.

(** [path.exists(p)] (follows symbolic links). *)
Definition path_exists (out : gmap string entry) (n : string) : bool :=
  match out !! n with
  | None => false
  | Some (ESym TDangling) => false
  | Some _ => true
  end.

(** [path.lexists(p)]. *)
Definition path_lexists (out : gmap string entry) (n : string) : bool :=
  bool_decide (is_Some (out !! n)).

(** [os.remove(p)]; [None] when it raises. *)
Definition os_remove (E : env) (out : gmap string entry) (n : string)
    : option (gmap string entry) :=
  if out_ro E then None
  else match out !! n with
       | None => None
       | Some (EOther _ true) => None
       | Some _ => Some (delete n out)
       end.

(** [os.link(piconPath, p)] for an icon of identity [i]. *)
Definition os_link (E : env) (i : ident) (out : gmap string entry) (n : string)
    : option (gmap string entry) :=
  if out_ro E then None
  else if path_lexists out n then None
  else if negb (N.eqb i.1 (out_dev E)) then None
  else Some (<[n := EReg i]> out).

(** [os.symlink(piconPath, p)]: the link resolves to the icon file. *)
Definition os_symlink (E : env) (i : ident) (out : gmap string entry) (n : string)
    : option (gmap string entry) :=
  if out_ro E then None
  else if path_lexists out n then None
  else Some (<[n := ESym (TFile i)]> out).

End FS.

Import FS.

(** ** The link maker *)

Module LinkMaker.

Inductive ref_type := IS_FILE | IS_HLINK | IS_SLINK | IS_OTHER | IS_ERROR.

#[global] Instance ref_type_eq_dec : EqDecision ref_type.
Proof. solve_decision. Defined.

(** [refType]: [path.islink], then [path.isfile] and [st_nlink].  The
    [IS_ERROR] case needs a failing [stat] after a successful
    [path.isfile], which the model does not have. *)
Definition refType (E : env) (out : gmap string entry) (n : string) : ref_type :=
  match out !! n with
  | Some (ESym _) => IS_SLINK
  | Some (EReg i) => if Nat.ltb 1 (nlink E out i) then IS_HLINK else IS_FILE
  | Some (EOther _ _) => IS_OTHER
  | None => IS_OTHER
  end.

(** [getLinkRef]; [None] when [stat] raises. *)
Definition getLinkRef (out : gmap string entry) (n : string) : option ident :=
  match out !! n with
  | Some e => stat_ident e
  | None => None
  end.

(** The messages the script prints. *)
Inductive msg :=
| MRenamed (key old new : string)
| MRemoving (n : nat)
| MCantRemove (name : string)
| MCantProcessLinkDir
| MTooMany (line : string)
| MTooFew (line : string)
| MOverridden (picon name : string)
| MLinkFailed (hard : bool) (piconName name : string)
| MNoPicon (picon servRef : string)
| MConflict (servRef existing requested : string)
| MLinksMade (n : nat)
| MCantWriteIndex.

Definition PICON_SRCS : list string :=
  ["_ab"; "_fv"; "_gm"; "_lw"; "_mp"; "_nine"; "_rc"; "_sbs"; "_wp"; "_ys"].

(** [self.piconFiles]: icon key to (file name, identity). *)
Abbreviation picon_files := (gmap string (string * ident)).

(** One iteration of the loop of [_makePiconFileList]. *)
Definition scan_icon (acc : picon_files * list msg) (ne : string * entry)
    : picon_files * list msg :=
  let '(files, lg) := acc in
  let '(name, e) := ne in
  let '(basename, ext) := splitext name in
  if negb (String.eqb ext ".png") then acc
  else match file_ident e with
       | None => acc
       | Some ref =>
           let sfx :=
             match rsplit_last "_"%char basename with
             | Some (pre, suf) =>
                 if negb (String.eqb pre "") && existsb (String.eqb suf) PICON_SRCS
                 then Some pre else None
             | None => None
             end in
           let '(key, lg) :=
             match sfx with
             | Some pre =>
                 (Some pre,
                  match files !! pre with
                  | Some (old, _) => (lg ++ [MRenamed pre old name])%list
                  | None => lg
                  end)
             | None =>
                 (if bool_decide (files !! basename = None) then Some basename else None, lg)
             end in
           match key with
           | Some k => if String.eqb k "" then (files, lg) else (<[k := (name, ref)]> files, lg)
           | None => (files, lg)
           end
       end.

(** [_makePiconFileList]. *)
Definition makePiconFileList (E : env) : picon_files * list msg :=
  fold_left scan_icon (chan_dir E) (∅, []).

(** The state of a [LinkMaker] during a run; [piconLinks] and
    [linksMade] are the locals of [makeLinks]. *)
Record LM := mkLM {
  lm_out : gmap string entry;
  origPiconLinks : gmap string ident;
  overrides : gset string;
  linkedPiconNames : gset string;
  piconLinks : gmap string string;
  linksMade : nat;
  lm_log : list msg
}.

Definition set_out (out : gmap string entry) (s : LM) : LM :=
  mkLM out (origPiconLinks s) (overrides s) (linkedPiconNames s) (piconLinks s) (linksMade s) (lm_log s).
Definition set_orig (orig : gmap string ident) (s : LM) : LM :=
  mkLM (lm_out s) orig (overrides s) (linkedPiconNames s) (piconLinks s) (linksMade s) (lm_log s).
Definition set_overrides (ov : gset string) (s : LM) : LM :=
  mkLM (lm_out s) (origPiconLinks s) ov (linkedPiconNames s) (piconLinks s) (linksMade s) (lm_log s).
Definition bump_links (s : LM) : LM :=
  mkLM (lm_out s) (origPiconLinks s) (overrides s) (linkedPiconNames s) (piconLinks s) (S (linksMade s)) (lm_log s).
Definition add_log (m : msg) (s : LM) : LM :=
  mkLM (lm_out s) (origPiconLinks s) (overrides s) (linkedPiconNames s) (piconLinks s) (linksMade s) (lm_log s ++ [m])%list.
(** Lines 284-285. *)
Definition record_link (name picon piconName : string) (s : LM) : LM :=
  mkLM (lm_out s) (origPiconLinks s) (overrides s) ({[piconName]} ∪ linkedPiconNames s)
       (<[name := picon]> (piconLinks s)) (linksMade s) (lm_log s).

(** One name of [_clean]. *)
Definition remove_one (E : env) (s : LM) (name : string) : LM :=
  match os_remove E (lm_out s) name with
  | Some out' => set_out out' s
  | None => add_log (MCantRemove name) s
  end.

(** [_clean(servRefNames)]. *)
Definition _clean (E : env) (names : list string) (s : LM) : LM :=
  fold_left (remove_one E) names (add_log (MRemoving (length names)) s).

(** [clean()]: remove every name left in [origPiconLinks]. *)
Definition clean (E : env) (s : LM) : LM :=
  set_orig ∅ (_clean E (map fst (map_to_list (origPiconLinks s))) s).

(** The loop of [_cleanWrongLinks]: [origPiconLinks] and [wrongLinks];
    [None] when [getLinkRef] raises (a dangling link). *)
Definition scan_link (E : env) (o : options) (out : gmap string entry)
    (acc : option (gmap string ident * list string)) (ne : string * entry)
    : option (gmap string ident * list string) :=
  match acc with
  | None => None
  | Some (orig, wrong) =>
      let name := ne.1 in
      if negb (is_png name) then Some (orig, wrong)
      else
        let t := refType E out name in
        if bool_decide (t = IS_SLINK) || bool_decide (t = IS_HLINK) then
          match getLinkRef out name with
          | None => None
          | Some r =>
              if Bool.eqb (useHardLinks o) (bool_decide (t = IS_HLINK))
              then Some (<[name := r]> orig, wrong)
              else Some (orig, (wrong ++ [name])%list)
          end
        else Some (orig, wrong)
  end.

Definition scan_links (E : env) (o : options) (out : gmap string entry)
    : option (gmap string ident * list string) :=
  fold_left (scan_link E o out) (map_to_list out) (Some (∅, [])).

(** [_cleanWrongLinks], starting from the log [lg] of the inventory scan;
    [None] is its [exit(1)]. *)
Definition cleanWrongLinks (E : env) (o : options) (lg : list msg) (out : gmap string entry)
    : option LM :=
  match scan_links E o out with
  | None => None
  | Some (orig, wrong) =>
      let s := _clean E wrong (mkLM out orig ∅ ∅ ∅ 0 lg) in
      Some (if cleanAll o then clean E s else s)
  end.

End LinkMaker.

Import LinkMaker.

(** ** [makeLinks] *)

Module Make.

(** [isOverride(servRefPath)]: the answer and the new [overrides]. *)
Definition isOverride (E : env) (s : LM) (name : string) : bool * gset string :=
  let ov :=
    if negb (bool_decide (name ∈ overrides s)) && bool_decide (refType E (lm_out s) name = IS_FILE)
    then {[name]} ∪ overrides s else overrides s in
  (bool_decide (name ∈ ov), ov).

Definition os_make (E : env) (o : options) : ident -> gmap string entry -> string -> option (gmap string entry) :=
  if useHardLinks o then os_link E else os_symlink E.

(** Lines 264-282 for an icon [(piconName, piconRef)]: whether the target
    ends up [linked]. *)
Definition link_target (E : env) (o : options) (name piconName : string) (piconRef : ident)
    (lex : bool) (s : LM) : LM * bool :=
  let '(linked, s) :=
    match origPiconLinks s !! name with
    | Some r => (bool_decide (r = piconRef), set_orig (delete name (origPiconLinks s)) s)
    | None => (false, s)
    end in
  if linked then (s, true)
  else
    match (if lex then os_remove E (lm_out s) name else Some (lm_out s)) with
    | None => (add_log (MLinkFailed (useHardLinks o) piconName name) s, false)
    | Some out1 =>
        let s := bump_links (set_out out1 s) in
        match os_make E o piconRef out1 name with
        | None => (add_log (MLinkFailed (useHardLinks o) piconName name) s, false)
        | Some out2 => (set_out out2 s, true)
        end
    end.

(** Lines 239-290 for one target name [name] of the record [servRef]
    with icon key [picon]. *)
Definition make_link (E : env) (o : options) (pf : picon_files)
    (servRef picon name : string) (s : LM) : LM :=
  if bool_decide (piconLinks s !! name = Some picon) then s
  else
    match piconLinks s !! name with
    | Some prev => add_log (MConflict servRef prev picon) s
    | None =>
        let ex := path_exists (lm_out s) name in
        let already := bool_decide (name ∈ overrides s) in
        let '(isov, ov) := if ex then isOverride E s name else (false, overrides s) in
        let s := set_overrides ov s in
        if isov then (if already then s else add_log (MOverridden picon name) s)
        else
          let lex := ex || path_lexists (lm_out s) name in
          let '(s, linked) :=
            match pf !! picon with
            | Some (piconName, piconRef) =>
                let '(s, linked) := link_target E o name piconName piconRef lex s in
                (if linked then record_link name picon piconName s else s, linked)
            | None => (s, false)
            end in
          if linked then s
          else if existsb (String.eqb picon) ["tba"; "tobeadvised"] then s
          else add_log (MNoPicon picon servRef) s
    end.

(** How lines 199-209 classify an input line (given without its newline). *)
Inductive line_kind :=
| LSkip
| LTooMany (line : string)
| LTooFew (line : string)
| LRecord (servRef serviceName picon : string).

Definition parse_line (line0 : string) : line_kind :=
  let line := rstrip (strip_comment line0) in
  if String.eqb line "" then LSkip
  else match split line with
       | [servRef; serviceName; picon] => LRecord servRef serviceName picon
       | F => if Nat.ltb 3 (length F) then LTooMany line else LTooFew line
       end.

(** The targets of one record, in order. *)
Definition make_links_record (E : env) (o : options) (pf : picon_files)
    (servRef picon : string) (servRefs : list (list string)) (s : LM) : LM :=
  fold_left (fun s srp => make_link E o pf servRef picon (target_name srp) s) servRefs s.

(** The loop of [makeLinks] over the lines, with the local
    [servRefPartsFold]; the flag says an exception escaped. *)
Fixpoint make_links_lines (E : env) (o : options) (pf : picon_files)
    (lines : list string) (srpf : option (list string)) (s : LM) : LM * bool :=
  match lines with
  | [] => (s, false)
  | line :: rest =>
      match parse_line line with
      | LSkip => make_links_lines E o pf rest srpf s
      | LTooMany l => make_links_lines E o pf rest srpf (add_log (MTooMany l) s)
      | LTooFew l => make_links_lines E o pf rest srpf (add_log (MTooFew l) s)
      | LRecord servRef serviceName picon =>
          match expand o (ref_parts servRef) serviceName srpf with
          | None => (s, true)
          | Some (servRefs, srpf') =>
              make_links_lines E o pf rest srpf'
                (make_links_record E o pf servRef picon servRefs s)
          end
      end
  end.

Definition makeLinks (E : env) (o : options) (pf : picon_files) (lines : list string)
    (s : LM) : LM * bool :=
  let '(s, raised) := make_links_lines E o pf lines None s in
  if raised then (s, true) else (add_log (MLinksMade (linksMade s)) s, false).

(** [makeHtmlIndex] exits when [index.html] cannot be opened for writing:
    it is a directory, or it is missing in a read-only directory. *)
Definition index_fails (E : env) (out : gmap string entry) : bool :=
  match out !! "index.html" with
  | Some (EOther _ true) => true
  | Some _ => false
  | None => out_ro E
  end.

Inductive run_result :=
| RDone (s : LM)
| RExit (s : LM)
| RRaise (s : LM).

Definition result_state (r : run_result) : LM :=
  match r with RDone s | RExit s | RRaise s => s end.

(** One [LinkMaker] run on an output directory whose entries are [out]:
    the constructor, [makeLinks], [makeHtmlIndex] and [clean].  The run
    starts once the service reference file is open and the icon directory
    has been listed; the [exit(1)] of the constructor and of
    [_makePiconFileList] when these fail are not modelled. *)
Definition run (E : env) (o : options) (lines : list string) (out : gmap string entry)
    : run_result :=
  let '(pf, lg) := makePiconFileList E in
  match cleanWrongLinks E o lg out with
  | None => RExit (mkLM out ∅ ∅ ∅ ∅ 0 (lg ++ [MCantProcessLinkDir])%list)
  | Some s0 =>
      let '(s1, raised) := makeLinks E o pf lines s0 in
      if raised then RRaise s1
      else if index_fails E (lm_out s1) then RExit (add_log MCantWriteIndex s1)
      else RDone (clean E s1)
  end.

(** Successive runs on the same output directory. *)
Fixpoint run_seq (E : env) (rs : list (options * list string)) (out : gmap string entry)
    : gmap string entry :=
  match rs with
  | [] => out
  | (o, lines) :: rest => run_seq E rest (lm_out (result_state (run E o lines out)))
  end.

End Make.

Import Make.

(** ** The reports of a run: [checkUnused] and [makeHtmlIndex] *)

Module Report.

(** Python's [<] on strings: code-point order, which on the bytes of
    UTF-8 text is byte order. *)
Fixpoint str_ltb (a b : string) : bool :=
  match a, b with
  | EmptyString, EmptyString => false
  | EmptyString, String _ _ => true
  | String _ _, EmptyString => false
  | String x a', String y b' =>
      if (nat_of_ascii x <? nat_of_ascii y)%nat then true
      else if (nat_of_ascii x =? nat_of_ascii y)%nat then str_ltb a' b' else false
  end.

Fixpoint insert_sorted (x : string) (l : list string) : list string :=
  match l with
  | [] => [x]
  | y :: l' => if str_ltb y x then y :: insert_sorted x l' else x :: l
  end.

(** [sorted(l)]: for a total order on strings every stable sort gives
    this list. *)
Definition sorted_strs (l : list string) : list string := fold_right insert_sorted [] l.

(** [a <= b] on strings. *)
Definition str_leb (a b : string) : Prop := str_ltb b a = false.

(** [fileinfo[0] for fileinfo in self.piconFiles.values()]. *)
Definition picon_names (pf : picon_files) : list string :=
  map (fun kv : string * (string * ident) => kv.2.1) (map_to_list pf).

(** [checkUnused]: the icon files named in the report
    [Picon <name> unused], in order. *)
Definition checkUnused (pf : picon_files) (s : LM) : list string :=
  sorted_strs (elements ((list_to_set (picon_names pf) : gset string) ∖ linkedPiconNames s)).

Definition CHAN_PICON_DIR : string := "channel_picons".

Definition nl : string := String (ascii_of_nat 10) EmptyString.
Definition dq : string := String (ascii_of_nat 34) EmptyString.

(** [self.htmlHead] and [self.htmlTail] of the constructor. *)
Definition htmlHead (title : string) : string :=
  "<!DOCTYPE html PUBLIC " ++ dq ++ "-//w3c//dtd html 4.0 transitional//en" ++ dq ++ ">" ++ nl ++
  "<html>" ++ nl ++ "<head>" ++ nl ++ "  <title>" ++ title ++ "</title>" ++ nl ++ "</head>" ++ nl ++
  "<body text=" ++ dq ++ "#ffffff" ++ dq ++ " bgcolor=" ++ dq ++ "#303030" ++ dq ++
  " link=" ++ dq ++ "#0000ff" ++ dq ++ " vlink=" ++ dq ++ "#800080" ++ dq ++
  " alink=" ++ dq ++ "#ff00ff" ++ dq ++ ">" ++ nl ++
  "<h1><center>" ++ title ++ "</center></h1>" ++ nl ++
  "<table border=" ++ dq ++ "0" ++ dq ++ " align=" ++ dq ++ "center" ++ dq ++
  " cellspacing=" ++ dq ++ "0" ++ dq ++ " cellpadding=" ++ dq ++ "0" ++ dq ++ ">" ++ nl ++
  "  <tbody>".

Definition htmlTail : string := "  </tbody>" ++ nl ++ "</table></body></html>".

(** [print('    <td><img src="' + piconPath + '"></td>', file=htmlFile)]
    for [piconPath = path.join(CHAN_PICON_DIR, piconName)]. *)
Definition html_cell (piconName : string) : string :=
  "    <td><img src=" ++ dq ++ CHAN_PICON_DIR ++ "/" ++ piconName ++ dq ++ "></td>" ++ nl.

(** One iteration of the loop of [makeHtmlIndex]: [row], [item] and the
    pieces written so far. *)
Definition index_step (st : nat * nat * list string) (piconName : string) : nat * nat * list string :=
  let '(row, item, acc) := st in
  let acc :=
    if (item =? 0)%nat
    then (acc ++ ["  "] ++ (if (row =? 0)%nat then [] else ["</tr>"]) ++ [String.append "<tr>" nl])%list
    else acc in
  let acc := (acc ++ [html_cell piconName])%list in
  let item := S item in
  if (6 <=? item)%nat then (S row, 0%nat, acc) else (row, item, acc).

(** [makeHtmlIndex] once [index.html] is open: the pieces written to it,
    in order ([print] adds the newline). *)
Definition makeHtmlIndex (title : string) (pf : picon_files) : list string :=
  let '(row, _, acc) :=
    fold_left index_step (sorted_strs (picon_names pf)) (0%nat, 0%nat, [String.append (htmlHead title) nl]) in
  (acc ++ (if (row =? 0)%nat then [] else [String.append "  </tr>" nl]) ++ [String.append htmlTail nl])%list.

End Report.

Import Report.

(** ** The picon set name and title of the constructor *)

Module Title.

Fixpoint all_slash (s : string) : bool :=
  match s with
  | EmptyString => true
  | String a s' => Ascii.eqb a "/"%char && all_slash s'
  end.

(** [s.rstrip('/')]. *)
Fixpoint rstrip_slash (s : string) : string :=
  match s with
  | EmptyString => EmptyString
  | String a s' =>
      let r := rstrip_slash s' in
      if String.eqb r "" && Ascii.eqb a "/"%char then EmptyString else String a r
  end.

(** [posixpath.split(p)]: the text up to and including the last [/],
    with its trailing slashes removed unless it is only slashes, and the
    text after it. *)
Definition path_split (p : string) : string * string :=
  match rsplit_last "/"%char p with
  | None => ("", p)
  | Some (pre, suf) =>
      let head := pre ++ "/" in
      let tail := match suf with String _ t => t | EmptyString => EmptyString end in
      (if all_slash head then head else rstrip_slash head, tail)
  end.

(** Lines 76-86: [piconPath] defaults to ["."]; [piconSet] is the last
    component of the head of [path.split(piconPath)], or its tail when
    the head is empty. *)
Definition init_path (piconPath : string) : string :=
  if String.eqb piconPath "" then "." else piconPath.

Definition piconSet (piconPath : string) : string :=
  let '(piconSet, piconBase) := path_split (init_path piconPath) in
  if negb (String.eqb piconSet "") then snd (path_split piconSet) else piconBase.

Definition TITLES : list (string * string) :=
  [("buttonPicons", "Australian picons, white background, button shading");
   ("flatBlackPicons", "Australian picons, black background");
   ("flatPicons", "Australian picons, white background");
   ("maskPicons", "Australian picons, with mask");
   ("lcdPicons", "Australian Front Panel picons");
   ("picon", "Australian picons, with mask");
   ("piconlcd", "Australian Front Panel picons")].

(** [title = self.TITLES[piconSet] if piconSet in self.TITLES else piconSet]. *)
Definition title (piconPath : string) : string :=
  let ps := piconSet piconPath in
  match find (fun kv : string * string => String.eqb kv.1 ps) TITLES with
  | Some kv => kv.2
  | None => ps
  end.

End Title.

Import Title.

(** ** Predicates used in the statements *)

Module Preds.

(** The number of names an inode has outside the output directory. *)
Definition outside (E : env) (i : ident) : nat := ext_links E i + cnt_chan (chan_dir E) i.

(** The output directory shares no inode between two of its names unless
    the inode also has a name outside it. *)
Definition good (E : env) (out : gmap string entry) : Prop :=
  forall n X, out !! n = Some (EReg X) -> 1 <= outside E X \/ cnt_out out X = 1.

(** Every inventory icon has a name outside the output directory (true of
    every icon that is a regular file of the icon directory). *)
Definition icons_stored (E : env) : Prop :=
  forall k pn I, (makePiconFileList E).1 !! k = Some (pn, I) -> 1 <= outside E I.

(** The link kind a run keeps: [useHardLinks == (fileType == IS_HLINK)]. *)
Definition kind (o : options) : ref_type := if useHardLinks o then IS_HLINK else IS_SLINK.

(** The entry [os.link]/[os.symlink] creates for an icon of identity [I]. *)
Definition new_entry (o : options) (I : ident) : entry :=
  if useHardLinks o then EReg I else ESym (TFile I).

(** An entry of the configured shape (regular file for hard links,
    symbolic link otherwise) whose [stat] identity is [I]. *)
Definition link_entry (o : options) (e : option entry) (I : ident) : Prop :=
  if useHardLinks o then e = Some (EReg I)
  else exists t, e = Some (ESym t) /\ stat_ident (ESym t) = Some I.

(** The name is a link of the configured kind whose identity is [I]. *)
Definition linked_to (E : env) (o : options) (out : gmap string entry) (n : string) (I : ident) : Prop :=
  refType E out n = kind o /\ getLinkRef out n = Some I.

(** Every name still in [origPiconLinks] is a link of the configured
    shape with the recorded identity. *)
Definition orig_ok (o : options) (s : LM) : Prop :=
  forall n I, origPiconLinks s !! n = Some I -> link_entry o (lm_out s !! n) I.

(** Every name claimed in [piconLinks] is out of [origPiconLinks] and is
    a link of the configured shape to the inventory icon of its key. *)
Definition claimed_ok (o : options) (pf : picon_files) (s : LM) : Prop :=
  orig_ok o s /\
  forall n k, piconLinks s !! n = Some k ->
    origPiconLinks s !! n = None /\
    exists pn I, pf !! k = Some (pn, I) /\ link_entry o (lm_out s !! n) I.

(** The name [n] is claimed, still listed for the final removal, or gone. *)
Definition tracked (s : LM) (n : string) : Prop :=
  is_Some (piconLinks s !! n) \/ is_Some (origPiconLinks s !! n) \/ lm_out s !! n = None.

(** [N] is a regular file of inode [X], [X]'s only name in the output
    directory, and [N] is not listed for the final removal. *)
Definition file_kept (N : string) (X : ident) (s : LM) : Prop :=
  lm_out s !! N = Some (EReg X) /\ cnt_out (lm_out s) X = 1 /\ origPiconLinks s !! N = None.

(** A failure report: a removal or a link creation that raised. *)
Definition is_failure (m : msg) : bool :=
  match m with
  | MCantRemove _ | MLinkFailed _ _ _ => true
  | _ => false
  end.

(** A regular file with no name outside the output directory. *)
Definition plain (E : env) (out : gmap string entry) (n : string) : Prop :=
  exists X, out !! n = Some (EReg X) /\ outside E X = 0.

(** What the scan of [_cleanWrongLinks] records for [n] in a directory
    [F] without links of the other kind. *)
Definition scan_orig (E : env) (o : options) (F : gmap string entry) (n : string) : option ident :=
  if is_png n && bool_decide (refType E F n = kind o) then getLinkRef F n else None.

(** The log reports no failed removal or link creation. *)
Definition free_log (l : list msg) : Prop := forall m, In m l -> is_failure m = false.

(** The invariant of a run without failures. *)
Definition inv1 (E : env) (o : options) (pf : picon_files) (s : LM) : Prop :=
  good E (lm_out s) /\ claimed_ok o pf s /\
  (forall n I, origPiconLinks s !! n = Some I ->
     is_png n = true /\ refType E (lm_out s) n = kind o) /\
  (forall n, n ∈ overrides s ->
     plain E (lm_out s) n /\ origPiconLinks s !! n = None /\ piconLinks s !! n = None) /\
  (forall n, is_png n = true -> refType E (lm_out s) n = kind o ->
     is_Some (piconLinks s !! n) \/ is_Some (origPiconLinks s !! n)) /\
  (forall n, is_png n = true ->
     (refType E (lm_out s) n = IS_SLINK \/ refType E (lm_out s) n = IS_HLINK) ->
     refType E (lm_out s) n = kind o /\ is_Some (getLinkRef (lm_out s) n)).

(** A second run on the final directory [F] of a first run, step by
    step: same claims, no change to [F], no link made, overrides only
    plain files, and the baseline links not yet claimed are those of the
    scan of [F]. *)
Definition sim (E : env) (o : options) (F : gmap string entry) (s1 s2 : LM) : Prop :=
  piconLinks s2 = piconLinks s1 /\ lm_out s2 = F /\ linksMade s2 = 0 /\
  (forall n, n ∈ overrides s2 -> plain E F n) /\
  (forall n, origPiconLinks s2 !! n =
     match piconLinks s1 !! n with Some _ => None | None => scan_orig E o F n end).

(** The override test of lines 248-254. *)
Definition is_ov (E : env) (s : LM) (name : string) : Prop :=
  path_exists (lm_out s) name = true /\
  (name ∈ overrides s \/ refType E (lm_out s) name = IS_FILE).

(** What a target appends to the log. *)
Definition step_msg (sr picon name : string) (pl : gmap string string) (m : msg) : Prop :=
  m = MOverridden picon name \/ m = MNoPicon picon sr \/
  (exists h pn, m = MLinkFailed h pn name) \/
  (exists k, pl !! name = Some k /\ m = MConflict sr k picon).

(** A name ending in [.png]. *)
Definition png_name (n : string) : Prop := exists b, n = (b ++ ".png")%string.

(** The log only grows, with the messages of [makeLinks]. *)
Definition lines_msg (m : msg) : Prop :=
  match m with
  | MOverridden _ _ | MNoPicon _ _ | MLinkFailed _ _ _ | MConflict _ _ _
  | MTooMany _ | MTooFew _ => True
  | _ => False
  end.

End Preds.

Import Preds.

(** ** Concrete inputs *)

Module Scenarios.

Local Open Scope N_scope.

(** Command-line settings: [-a]; [-F]; the default [-f]; [-S -H]. *)
Definition opts_addfold := mkOptions false false false true false false false.
Definition opts_fold := mkOptions false false true false false false false.
Definition opts_full := mkOptions true false false false false false false.
Definition opts_names_hard := mkOptions false false false false true true false.

(** The example service reference of the specification. *)
Definition abc_ref : string := "1:0:2:4A:6:1010:0:0:0:0".

(** A data service (type 0x19) and a TV service (type 0x1) of one network. *)
Definition data_line : string := "1:0:19:4A:6:85:0:0:0:0 Data abc".
Definition tv_line : string := "1:0:1:33:6:85:0:0:0:0 TV abc".

(** A record whose first field is not a number. *)
Definition bad_line : string := "abc:0:1:0:0:0:0:0:0:0 X abc".

(** An icon directory, no other names, on device 0, writable. *)
Definition icons (l : list (string * entry)) : env := mkEnv l (fun _ => 0%nat) 0 false.

Definition env_none : env := icons [].
Definition env_k1 : env := icons [("k1.png", EReg (0, 1))].
Definition env_k2 : env := icons [("k2.png", EReg (0, 2))].
Definition env_k1k2 : env := icons [("k1.png", EReg (0, 1)); ("k2.png", EReg (0, 2))].
Definition env_sbs : env := icons [("abc_sbs.png", EReg (0, 1)); ("abc.png", EReg (0, 2))].

(** Two records for one service reference with different icon keys. *)
Definition two_keys : list string :=
  ["1:0:19:1:2:3:0:0:0:0 First k1"; "1:0:19:1:2:3:0:0:0:0 Second k2"].
Definition two_keys_target : string := "1_0_19_1_2_3_0_0_0_0.png".

(** Two hard links of one inode with no other name, and two service-name
    records. *)
Definition shared_out : gmap string entry :=
  <["A.png" := EReg (0, 9)]> (<["B.png" := EReg (0, 9)]> ∅).
Definition shared_lines : list string := ["x:0:0 A k1"; "y:0:0 B k1"].

(** A symbolic link left by an earlier run. *)
Definition stale_out : gmap string entry := {["old.png" := ESym (TFile (0, 1))]}.

(** A plain file of the output directory, the target of a service-name
    record. *)
Definition own_out : gmap string entry := {["own.png" := EReg (0, 5)]}.
Definition own_line : string := "x:0:0 own k1".

(** A read-only output directory, an empty state and a one-icon inventory. *)
Definition env_ro : env := mkEnv [] (fun _ => 0%nat) 0 true.
Definition lm_empty : LM := mkLM ∅ ∅ ∅ ∅ ∅ 0 [].
Definition pf_k1 : picon_files := {["k1" := ("k1.png", (0, 1))]}.

(** Three icons of base [abc]: two source-suffixed ones, then the plain one. *)
Definition env_sfx : env :=
  icons [("abc_fv.png", EReg (0, 3)); ("abc_sbs.png", EReg (0, 1)); ("abc.png", EReg (0, 2))].

(** [own_out] with a dangling symbolic link beside the file. *)
Definition dangling_out : gmap string entry := <["d.png" := ESym TDangling]> own_out.

(** The default link kind with [-c]. *)
Definition opts_full_c := mkOptions true false false false false false true.

(** Two runs over [own_out]. *)
Definition own_runs : list (options * list string) :=
  [(opts_names_hard, [own_line]); (opts_full, [own_line])].

(** The state after one run of [two_keys] over an empty directory. *)
Definition run1_k1 : LM := result_state (run env_k1 opts_full two_keys ∅).

(** The states of a run of [two_keys] with the icons [k1] and [k2]: after
    the constructor, and after the loop of [makeLinks]. *)
Definition cwl_k1k2 : LM :=
  match cleanWrongLinks env_k1k2 opts_full (makePiconFileList env_k1k2).2 ∅ with
  | Some s => s
  | None => lm_empty
  end.
Definition lines_k1k2 : LM * bool :=
  make_links_lines env_k1k2 opts_full (makePiconFileList env_k1k2).1 two_keys None cwl_k1k2.

End Scenarios.

Import Scenarios.

(** * Proofs *)

(** ** Hard-link counts *)

Module Counts.

Lemma cnt_out_pos (m : gmap string entry) n X :
  m !! n = Some (EReg X) -> 1 <= cnt_out m X.
Proof.
  intros H. unfold cnt_out.
  assert (size (filter (fun kv : string * entry => kv.2 = EReg X) m) <> 0); [|lia].
  apply (map_size_ne_0_lookup_2 _ n). exists (EReg X).
  by apply map_lookup_filter_Some_2.
Qed.

Lemma cnt_out_mono (m m' : gmap string entry) X :
  (forall n, m' !! n = Some (EReg X) -> m !! n = Some (EReg X)) ->
  cnt_out m' X <= cnt_out m X.
Proof.
  intros H. unfold cnt_out. apply map_subseteq_size.
  apply map_subseteq_spec. intros n e He.
  apply map_lookup_filter_Some in He as [He1 He2]. simpl in He2. subst e.
  apply map_lookup_filter_Some_2; [by apply H | done].
Qed.

(** A regular entry is [IS_HLINK] or [IS_FILE] by its count. *)
Lemma refType_reg E out n X :
  out !! n = Some (EReg X) ->
  refType E out n = if Nat.ltb 1 (nlink E out X) then IS_HLINK else IS_FILE.
Proof. intros H. unfold refType. by rewrite H. Qed.

Lemma refType_hlink E out n X :
  out !! n = Some (EReg X) -> 1 <= outside E X -> refType E out n = IS_HLINK.
Proof.
  intros H Ho. rewrite (refType_reg _ _ _ _ H).
  pose proof (cnt_out_pos _ _ _ H). unfold nlink, outside in *.
  destruct (Nat.ltb_spec 1 (ext_links E X + cnt_chan (chan_dir E) X + cnt_out out X)); [done|lia].
Qed.

Lemma refType_good E out n X :
  good E out -> out !! n = Some (EReg X) ->
  refType E out n = if Nat.leb 1 (outside E X) then IS_HLINK else IS_FILE.
Proof.
  intros G H. destruct (Nat.leb_spec 1 (outside E X)) as [Ho|Ho].
  - by apply (refType_hlink _ _ _ X).
  - rewrite (refType_reg _ _ _ _ H). destruct (G _ _ H) as [|Hc]; [lia|].
    unfold nlink, outside in *. rewrite Hc.
    destruct (Nat.ltb_spec 1 (ext_links E X + cnt_chan (chan_dir E) X + 1)); [lia|done].
Qed.

Lemma good_preserved E out out' :
  good E out ->
  (forall n X, out' !! n = Some (EReg X) -> out !! n = Some (EReg X) \/ 1 <= outside E X) ->
  good E out'.
Proof.
  intros G H n X Hn. destruct (Nat.leb_spec 1 (outside E X)) as [Ho|Ho]; [by left|right].
  destruct (H _ _ Hn) as [Hold|]; [|lia].
  destruct (G _ _ Hold) as [|Hc]; [lia|].
  assert (cnt_out out' X <= cnt_out out X).
  { apply cnt_out_mono. intros m Hm. destruct (H _ _ Hm); [done|lia]. }
  pose proof (cnt_out_pos _ _ _ Hn). lia.
Qed.

End Counts.

Import Counts.

(** ** The scan of the existing links *)

Module ScanFacts.

Lemma scan_link_none E o out l : fold_left (scan_link E o out) l None = None.
Proof. induction l; simpl; auto. Qed.

Lemma refType_link_some E out n :
  refType E out n = IS_SLINK \/ refType E out n = IS_HLINK -> is_Some (out !! n).
Proof. unfold refType. destruct (out !! n); [eauto|]. intros [H|H]; discriminate. Qed.

Lemma kind_link o : kind o = IS_SLINK \/ kind o = IS_HLINK.
Proof. unfold kind. destruct (useHardLinks o); auto. Qed.

Lemma scan_fold_spec E o out l o0 w0 orig wrong :
  fold_left (scan_link E o out) l (Some (o0, w0)) = Some (orig, wrong) ->
  (forall n, orig !! n =
     if bool_decide (n ∈ l.*1) && is_png n && bool_decide (refType E out n = kind o)
     then getLinkRef out n else o0 !! n) /\
  (forall n, In n wrong -> In n w0 \/
     (is_png n = true /\ (refType E out n = IS_SLINK \/ refType E out n = IS_HLINK)
      /\ refType E out n <> kind o)) /\
  (forall n, n ∈ l.*1 -> is_png n = true ->
     (refType E out n = IS_SLINK \/ refType E out n = IS_HLINK) -> is_Some (getLinkRef out n)).
Proof.
  revert o0 w0. induction l as [|[n e] l IH]; intros o0 w0 Hf; simpl in Hf.
  - injection Hf as <- <-. split; [|split].
    + intros n. rewrite bool_decide_false; [done|]. simpl. apply not_elem_of_nil.
    + auto.
    + intros n Hn. by apply not_elem_of_nil in Hn.
  - simpl in Hf.
    destruct (is_png n) eqn:Hp; simpl in Hf.
    2:{ destruct (IH _ _ Hf) as (H1 & H2 & H3). split; [|split]; [|done|].
        - intros m. rewrite H1. destruct (decide (m = n)) as [->|Hne].
          + rewrite Hp. simpl. by rewrite !andb_false_r.
          + rewrite (bool_decide_ext (m ∈ ((n, e) :: l).*1) (m ∈ l.*1)); [done|]. rewrite fmap_cons, elem_of_cons. naive_solver.
        - intros m Hm Hpm Hl. rewrite fmap_cons, elem_of_cons in Hm.
          destruct Hm as [->|Hm]; [simpl in *; congruence|]. by apply H3. }
    destruct (bool_decide (refType E out n = IS_SLINK) || bool_decide (refType E out n = IS_HLINK)) eqn:Hk.
    + destruct (getLinkRef out n) as [r|] eqn:Hr.
      2:{ by rewrite scan_link_none in Hf. }
      destruct (Bool.eqb (useHardLinks o) (bool_decide (refType E out n = IS_HLINK))) eqn:Hb.
      * destruct (IH _ _ Hf) as (H1 & H2 & H3). split; [|split].
        -- intros m. rewrite H1. destruct (decide (m = n)) as [->|Hne].
           ++ assert (Hkind : refType E out n = kind o).
              { unfold kind. apply orb_true_iff in Hk.
                destruct (useHardLinks o); simpl in Hb; destruct Hk as [Hk|Hk];
                  apply bool_decide_eq_true in Hk; rewrite Hk in Hb |- *;
                  simpl in Hb; try done. }
              rewrite Hkind, Hp, lookup_insert_eq, Hr.
              rewrite (bool_decide_true (kind o = kind o)) by done.
              rewrite (bool_decide_true (n ∈ ((n, e) :: l).*1))
                by (rewrite fmap_cons; apply elem_of_cons; by left).
              simpl. destruct (bool_decide (n ∈ l.*1)); done.
           ++ rewrite lookup_insert_ne by congruence.
              destruct (bool_decide (m ∈ l.*1)) eqn:Hm1;
              destruct (bool_decide (m ∈ ((n, e) :: l).*1)) eqn:Hm2; try done.
              ** apply bool_decide_eq_true in Hm1. apply bool_decide_eq_false in Hm2.
                 exfalso. apply Hm2. rewrite fmap_cons. by apply elem_of_cons; right.
              ** apply bool_decide_eq_false in Hm1. apply bool_decide_eq_true in Hm2.
                 rewrite fmap_cons, elem_of_cons in Hm2. destruct Hm2 as [|Hm2]; [done|].
                 by exfalso.
        -- done.
        -- intros m Hm Hpm Hl. rewrite fmap_cons, elem_of_cons in Hm.
           destruct Hm as [->|Hm]; [simpl; by rewrite Hr|]. by apply H3.
      * destruct (IH _ _ Hf) as (H1 & H2 & H3). split; [|split].
        -- intros m. rewrite H1. destruct (decide (m = n)) as [->|Hne].
           ++ assert (Hkind : refType E out n <> kind o).
              { unfold kind. intros Heq. rewrite Heq in Hb.
                destruct (useHardLinks o); simpl in Hb; rewrite ?bool_decide_true in Hb; try done; rewrite bool_decide_false in Hb; done. }
              rewrite (bool_decide_false (refType E out n = kind o)) by done.
              rewrite !andb_false_r. done.
           ++ rewrite (bool_decide_ext (m ∈ ((n, e) :: l).*1) (m ∈ l.*1)); [done|]. rewrite fmap_cons, elem_of_cons. naive_solver.
        -- intros m Hm. destruct (H2 _ Hm) as [Hw|Hw]; [|by right].
           apply in_app_or in Hw as [Hw|Hw]; [by left|]. destruct Hw as [<-|[]].
           right. split; [done|]. split.
           ++ apply orb_true_iff in Hk as [Hk|Hk]; apply bool_decide_eq_true in Hk; auto.
           ++ unfold kind. intros Heq. rewrite Heq in Hb.
              destruct (useHardLinks o); simpl in Hb; rewrite ?bool_decide_true in Hb; try done; rewrite bool_decide_false in Hb; done.
        -- intros m Hm Hpm Hl. rewrite fmap_cons, elem_of_cons in Hm.
           destruct Hm as [->|Hm]; [simpl; by rewrite Hr|]. by apply H3.
    + destruct (IH _ _ Hf) as (H1 & H2 & H3). split; [|split]; [|done|].
      * intros m. rewrite H1. destruct (decide (m = n)) as [->|Hne].
        -- rewrite (bool_decide_false (refType E out n = kind o)); [by rewrite !andb_false_r|].
           intros Heq. apply orb_false_iff in Hk as [Hk1 Hk2].
           destruct (kind_link o) as [Hko|Hko]; rewrite Heq, Hko in *;
             [rewrite bool_decide_true in Hk1 | rewrite bool_decide_true in Hk2]; done.
        -- rewrite (bool_decide_ext (m ∈ ((n, e) :: l).*1) (m ∈ l.*1)); [done|]. rewrite fmap_cons, elem_of_cons. naive_solver.
      * intros m Hm Hpm Hl. rewrite fmap_cons, elem_of_cons in Hm.
        destruct Hm as [->|Hm]; [|by apply H3]. simpl in Hl.
        apply orb_false_iff in Hk as [Hk1 Hk2].
        destruct Hl as [Hl|Hl]; rewrite Hl in *;
          [rewrite bool_decide_true in Hk1 | rewrite bool_decide_true in Hk2]; done.
Qed.

Lemma scan_links_spec E o out orig wrong :
  scan_links E o out = Some (orig, wrong) ->
  (forall n, orig !! n =
     if is_png n && bool_decide (refType E out n = kind o) then getLinkRef out n else None) /\
  (forall n, In n wrong ->
     is_png n = true /\ (refType E out n = IS_SLINK \/ refType E out n = IS_HLINK)
     /\ refType E out n <> kind o) /\
  (forall n, is_png n = true ->
     (refType E out n = IS_SLINK \/ refType E out n = IS_HLINK) -> is_Some (getLinkRef out n)).
Proof.
  unfold scan_links. intros Hf. destruct (scan_fold_spec _ _ _ _ _ _ _ _ Hf) as (H1 & H2 & H3).
  split; [|split].
  - intros n. rewrite H1. rewrite lookup_empty.
    rewrite <- andb_assoc.
    destruct (is_png n && bool_decide (refType E out n = kind o)) eqn:Hc.
    + rewrite bool_decide_true; [done|].
      apply andb_true_iff in Hc as [_ Hc]. apply bool_decide_eq_true in Hc.
      destruct (refType_link_some E out n) as [e He]; [rewrite Hc; apply kind_link|].
      apply list_elem_of_fmap. exists (n, e). split; [done|]. by apply elem_of_map_to_list.
    + by rewrite andb_false_r.
  - intros n Hn. destruct (H2 _ Hn) as [[]|]; done.
  - intros n Hp Hl. apply H3; [|done|done].
    destruct (refType_link_some E out n Hl) as [e He].
    apply list_elem_of_fmap. exists (n, e). split; [done|]. by apply elem_of_map_to_list.
Qed.

(** Every png link of the other kind is listed as wrong. *)
Lemma scan_fold_wrong E o out l o0 w0 orig wrong :
  fold_left (scan_link E o out) l (Some (o0, w0)) = Some (orig, wrong) ->
  (forall n, In n w0 -> In n wrong) /\
  (forall n, n ∈ l.*1 -> is_png n = true ->
     (refType E out n = IS_SLINK \/ refType E out n = IS_HLINK) ->
     refType E out n <> kind o -> In n wrong).
Proof.
  revert o0 w0. induction l as [|[n e] l IH]; intros o0 w0 Hf; simpl in Hf.
  - injection Hf as <- <-. split; [done|]. intros m Hm. by apply not_elem_of_nil in Hm.
  - destruct (is_png n) eqn:Hp; simpl in Hf.
    2:{ destruct (IH _ _ Hf) as [H1 H2]. split; [done|]. intros m Hm Hpm Hl Hnk.
        rewrite fmap_cons, elem_of_cons in Hm. destruct Hm as [->|Hm]; [simpl in *; congruence|].
        by apply H2. }
    destruct (bool_decide (refType E out n = IS_SLINK) || bool_decide (refType E out n = IS_HLINK)) eqn:Hk.
    + destruct (getLinkRef out n) as [r|] eqn:Hr; [|by rewrite scan_link_none in Hf].
      destruct (Bool.eqb (useHardLinks o) (bool_decide (refType E out n = IS_HLINK))) eqn:Hb;
        destruct (IH _ _ Hf) as [H1 H2].
      * split; [done|]. intros m Hm Hpm Hl Hnk.
        rewrite fmap_cons, elem_of_cons in Hm. destruct Hm as [->|Hm]; [|by apply H2].
        simpl in *. exfalso. apply Hnk. unfold kind.
        destruct (useHardLinks o); destruct Hl as [Hl|Hl]; rewrite Hl in Hb |- *;
          try done; vm_compute in Hb; discriminate.
      * split; [intros m Hm; apply H1, in_or_app; by left|]. intros m Hm Hpm Hl Hnk.
        rewrite fmap_cons, elem_of_cons in Hm. destruct Hm as [->|Hm]; [|by apply H2].
        apply H1, in_or_app. right. by left.
    + destruct (IH _ _ Hf) as [H1 H2]. split; [done|]. intros m Hm Hpm Hl Hnk.
      rewrite fmap_cons, elem_of_cons in Hm. destruct Hm as [->|Hm]; [|by apply H2].
      simpl in *. apply orb_false_iff in Hk as [Hk1 Hk2].
      destruct Hl as [Hl|Hl]; rewrite Hl in *;
        [rewrite bool_decide_true in Hk1 | rewrite bool_decide_true in Hk2]; done.
Qed.

Lemma scan_links_wrong E o out orig wrong n :
  scan_links E o out = Some (orig, wrong) -> is_png n = true ->
  (refType E out n = IS_SLINK \/ refType E out n = IS_HLINK) ->
  refType E out n <> kind o -> In n wrong.
Proof.
  unfold scan_links. intros Hf Hp Hl Hnk. apply (scan_fold_wrong _ _ _ _ _ _ _ _ Hf); [|done..].
  destruct (refType_link_some E out n Hl) as [e He].
  apply list_elem_of_fmap. exists (n, e). split; [done|]. by apply elem_of_map_to_list.
Qed.

(** Without dangling links and links of the other kind the scan lists
    nothing as wrong. *)
Lemma scan_fold_ok E o out l o0 w0 :
  (forall n, is_png n = true -> (refType E out n = IS_SLINK \/ refType E out n = IS_HLINK) ->
     refType E out n = kind o /\ is_Some (getLinkRef out n)) ->
  exists orig, fold_left (scan_link E o out) l (Some (o0, w0)) = Some (orig, w0).
Proof.
  intros HW. revert o0. induction l as [|[n e] l IH]; intros o0; simpl; [eauto|].
  destruct (is_png n) eqn:Hp; simpl; [|apply IH].
  destruct (bool_decide (refType E out n = IS_SLINK) || bool_decide (refType E out n = IS_HLINK)) eqn:Hk;
    [|apply IH].
  assert (Hl : refType E out n = IS_SLINK \/ refType E out n = IS_HLINK).
  { apply orb_true_iff in Hk as [Hk|Hk]; apply bool_decide_eq_true in Hk; auto. }
  destruct (HW n Hp Hl) as [Hkd [r Hr]]. rewrite Hr.
  assert (Hb : Bool.eqb (useHardLinks o) (bool_decide (refType E out n = IS_HLINK)) = true).
  { rewrite Hkd. unfold kind. destruct (useHardLinks o); reflexivity. }
  rewrite Hb. apply IH.
Qed.

End ScanFacts.

Import ScanFacts.

(** ** One target: [link_target] and [make_link] *)

Module StepFacts.

Lemma exists_lexists out n : path_exists out n = true -> path_lexists out n = true.
Proof.
  unfold path_exists, path_lexists. intros H. apply bool_decide_eq_true.
  destruct (out !! n); [eauto|discriminate].
Qed.

Lemma new_entry_link o I : link_entry o (Some (new_entry o I)) I.
Proof. unfold link_entry, new_entry. destruct (useHardLinks o); eauto. Qed.

Lemma os_make_spec E o I out n out' :
  os_make E o I out n = Some out' -> out !! n = None /\ out' = <[n := new_entry o I]> out.
Proof.
  unfold os_make, os_link, os_symlink, new_entry, path_lexists. intros H.
  assert (Hn : bool_decide (is_Some (out !! n)) = false -> out !! n = None).
  { intros Hl. apply bool_decide_eq_false in Hl. destruct (out !! n); [exfalso; eauto|done]. }
  destruct (useHardLinks o), (out_ro E); try discriminate;
    destruct (bool_decide (is_Some (out !! n))); try discriminate;
    repeat case_match; simplify_eq; auto.
Qed.

Lemma os_remove_spec E out n out' :
  os_remove E out n = Some out' -> out' = delete n out.
Proof. unfold os_remove. repeat case_match; congruence. Qed.

Lemma os_remove_ok E out n :
  out_ro E = false -> is_Some (out !! n) -> (forall i, out !! n <> Some (EOther i true)) ->
  os_remove E out n = Some (delete n out).
Proof.
  intros Hro [e He] Hd. unfold os_remove. rewrite Hro, He.
  destruct e as [| |i [|]]; try done. exfalso. by apply (Hd i).
Qed.

(** The outcomes of [link_target]. *)
Lemma link_target_cases E o name pn I lex s :
  lex = path_lexists (lm_out s) name ->
  let r := link_target E o name pn I lex s in
  origPiconLinks r.1 = delete name (origPiconLinks s) /\
  piconLinks r.1 = piconLinks s /\ overrides r.1 = overrides s /\
  linkedPiconNames r.1 = linkedPiconNames s /\
  ((r.2 = true /\
    ((origPiconLinks s !! name = Some I /\ lm_out r.1 = lm_out s /\
      linksMade r.1 = linksMade s) \/
     (origPiconLinks s !! name <> Some I /\ lm_out r.1 = <[name := new_entry o I]> (lm_out s) /\
      linksMade r.1 = S (linksMade s))) /\
    lm_log r.1 = lm_log s) \/
   (r.2 = false /\ origPiconLinks s !! name <> Some I /\
    (lm_out r.1 = lm_out s \/ lm_out r.1 = delete name (lm_out s)) /\
    (linksMade r.1 = linksMade s \/ linksMade r.1 = S (linksMade s)) /\
    lm_log r.1 = (lm_log s ++ [MLinkFailed (useHardLinks o) pn name])%list /\
    (out_ro E = false -> (forall i, lm_out s !! name <> Some (EOther i true)) ->
     lm_out r.1 !! name = None))).
Proof.
  intros Hlex r. subst r. destruct s as [out orig ov lpn pl lm lg]. simpl in *.
  unfold link_target. simpl.
  assert (Htail : forall orig', orig' !! name <> Some I ->
    let r := (let s := mkLM out orig' ov lpn pl lm lg in
      match (if lex then os_remove E (lm_out s) name else Some (lm_out s)) with
      | None => (add_log (MLinkFailed (useHardLinks o) pn name) s, false)
      | Some out1 =>
          let s := bump_links (set_out out1 s) in
          match os_make E o I out1 name with
          | None => (add_log (MLinkFailed (useHardLinks o) pn name) s, false)
          | Some out2 => (set_out out2 s, true)
          end
      end) in
    origPiconLinks r.1 = orig' /\ piconLinks r.1 = pl /\ overrides r.1 = ov /\
    linkedPiconNames r.1 = lpn /\
    ((r.2 = true /\ lm_out r.1 = <[name := new_entry o I]> out /\
      linksMade r.1 = S lm /\ lm_log r.1 = lg) \/
     (r.2 = false /\ (lm_out r.1 = out \/ lm_out r.1 = delete name out) /\
      (linksMade r.1 = lm \/ linksMade r.1 = S lm) /\
      lm_log r.1 = (lg ++ [MLinkFailed (useHardLinks o) pn name])%list /\
      (out_ro E = false -> (forall i, out !! name <> Some (EOther i true)) ->
       lm_out r.1 !! name = None)))).
  { intros orig' Hne r. subst r. simpl.
    destruct lex eqn:Hlx.
    - destruct (os_remove E out name) as [out1|] eqn:Hrm; simpl.
      + apply os_remove_spec in Hrm. subst out1.
        destruct (os_make E o I (delete name out) name) as [out2|] eqn:Hmk; simpl.
        * apply os_make_spec in Hmk as [_ ->]. rewrite insert_delete_eq.
          repeat split; auto.
        * repeat split; auto. right. repeat split; auto.
          intros _ _. apply lookup_delete_eq.
      + repeat split; auto. right. repeat split; auto.
        intros Hro Hd. unfold os_remove in Hrm. rewrite Hro in Hrm.
        destruct (out !! name) as [[| |i [|]]|]; try done. exfalso. by apply (Hd i).
    - destruct (os_make E o I out name) as [out2|] eqn:Hmk; simpl.
      + apply os_make_spec in Hmk as [_ ->]. repeat split; auto.
      + repeat split; auto. right. repeat split; auto.
        intros _ _. unfold path_lexists in Hlex. symmetry in Hlex.
        apply bool_decide_eq_false in Hlex. destruct (out !! name); [exfalso; eauto|done]. }
  destruct (orig !! name) as [r|] eqn:Ho.
  - destruct (bool_decide (r = I)) eqn:Hb.
    + apply bool_decide_eq_true in Hb. subst r. simpl.
      do 4 (split; [done|]). left. split; [done|]. split; [left; auto|done].
    + apply bool_decide_eq_false in Hb.
      destruct (Htail (delete name orig)) as (H1 & H2 & H3 & H4 & H5);
        [by rewrite lookup_delete_eq|].
      cbv zeta in *. do 4 (split; [done|]).
      destruct H5 as [(H5a & H5b & H5c & H5d)|(H5a & H5b & H5c & H5d & H5e)].
      * left. split; [done|]. split; [|done]. right. split; [congruence|auto].
      * right. split; [done|]. split; [congruence|]. tauto.
  - destruct (Htail orig) as (H1 & H2 & H3 & H4 & H5); [by rewrite Ho|].
    cbv zeta in *. rewrite delete_id by done. do 4 (split; [done|]).
    destruct H5 as [(H5a & H5b & H5c & H5d)|(H5a & H5b & H5c & H5d & H5e)].
    * left. split; [done|]. split; [|done]. right. split; [congruence|auto].
    * right. split; [done|]. split; [congruence|]. tauto.
Qed.

Lemma set_overrides_id s : set_overrides (overrides s) s = s.
Proof. by destruct s. Qed.

(** The outcomes of [make_link] for an unclaimed target: skipped as an
    override, no icon, linked, or a failed link creation. *)
Lemma make_link_cases E o pf sr picon name s :
  piconLinks s !! name = None ->
  let s' := make_link E o pf sr picon name s in
  (is_ov E s name /\
   lm_out s' = lm_out s /\ origPiconLinks s' = origPiconLinks s /\
   piconLinks s' = piconLinks s /\ linksMade s' = linksMade s /\
   (overrides s' = overrides s \/ overrides s' = {[name]} ∪ overrides s) /\
   (lm_log s' = lm_log s \/ lm_log s' = (lm_log s ++ [MOverridden picon name])%list))
  \/
  (~ is_ov E s name /\ overrides s' = overrides s /\
   ((pf !! picon = None /\ lm_out s' = lm_out s /\ origPiconLinks s' = origPiconLinks s /\
     piconLinks s' = piconLinks s /\ linksMade s' = linksMade s /\
     (lm_log s' = lm_log s \/ lm_log s' = (lm_log s ++ [MNoPicon picon sr])%list))
    \/
    (exists pn I, pf !! picon = Some (pn, I) /\
      origPiconLinks s' = delete name (origPiconLinks s) /\
      ((piconLinks s' = <[name := picon]> (piconLinks s) /\ lm_log s' = lm_log s /\
        ((origPiconLinks s !! name = Some I /\ lm_out s' = lm_out s /\
          linksMade s' = linksMade s) \/
         (origPiconLinks s !! name <> Some I /\
          lm_out s' = <[name := new_entry o I]> (lm_out s) /\
          linksMade s' = S (linksMade s))))
       \/
       (piconLinks s' = piconLinks s /\ origPiconLinks s !! name <> Some I /\
        (lm_out s' = lm_out s \/ lm_out s' = delete name (lm_out s)) /\
        (linksMade s' = linksMade s \/ linksMade s' = S (linksMade s)) /\
        (lm_log s' = (lm_log s ++ [MLinkFailed (useHardLinks o) pn name])%list \/
         lm_log s' = (lm_log s ++ [MLinkFailed (useHardLinks o) pn name;
                                   MNoPicon picon sr])%list) /\
        (out_ro E = false -> (forall i, lm_out s !! name <> Some (EOther i true)) ->
         lm_out s' !! name = None)))))).
Proof.
  intros Hpl s'. subst s'. unfold make_link. rewrite Hpl.
  rewrite bool_decide_false by done.
  assert (Hcont : forall ex, ex = path_exists (lm_out s) name -> ~ is_ov E s name ->
    let s' :=
      (let lex := ex || path_lexists (lm_out s) name in
       let '(s0, linked) :=
         match pf !! picon with
         | Some (piconName, piconRef) =>
             let '(s0, linked) := link_target E o name piconName piconRef lex s in
             (if linked then record_link name picon piconName s0 else s0, linked)
         | None => (s, false)
         end in
       if linked then s0
       else if existsb (String.eqb picon) ["tba"; "tobeadvised"] then s0
       else add_log (MNoPicon picon sr) s0) in
    ~ is_ov E s name /\ overrides s' = overrides s /\
    ((pf !! picon = None /\ lm_out s' = lm_out s /\ origPiconLinks s' = origPiconLinks s /\
      piconLinks s' = piconLinks s /\ linksMade s' = linksMade s /\
      (lm_log s' = lm_log s \/ lm_log s' = (lm_log s ++ [MNoPicon picon sr])%list))
     \/
     (exists pn I, pf !! picon = Some (pn, I) /\
       origPiconLinks s' = delete name (origPiconLinks s) /\
       ((piconLinks s' = <[name := picon]> (piconLinks s) /\ lm_log s' = lm_log s /\
         ((origPiconLinks s !! name = Some I /\ lm_out s' = lm_out s /\
           linksMade s' = linksMade s) \/
          (origPiconLinks s !! name <> Some I /\
           lm_out s' = <[name := new_entry o I]> (lm_out s) /\
           linksMade s' = S (linksMade s))))
        \/
        (piconLinks s' = piconLinks s /\ origPiconLinks s !! name <> Some I /\
         (lm_out s' = lm_out s \/ lm_out s' = delete name (lm_out s)) /\
         (linksMade s' = linksMade s \/ linksMade s' = S (linksMade s)) /\
         (lm_log s' = (lm_log s ++ [MLinkFailed (useHardLinks o) pn name])%list \/
          lm_log s' = (lm_log s ++ [MLinkFailed (useHardLinks o) pn name;
                                    MNoPicon picon sr])%list) /\
         (out_ro E = false -> (forall i, lm_out s !! name <> Some (EOther i true)) ->
          lm_out s' !! name = None)))))).
  { intros ex -> Hnov s'. subst s'. cbv zeta. split; [done|].
    destruct (pf !! picon) as [[pn I]|] eqn:Hpf.
    - assert (Hlex : path_exists (lm_out s) name || path_lexists (lm_out s) name
                     = path_lexists (lm_out s) name).
      { destruct (path_exists (lm_out s) name) eqn:He; [|done].
        simpl. symmetry. by apply exists_lexists. }
      pose proof (link_target_cases E o name pn I
        (path_exists (lm_out s) name || path_lexists (lm_out s) name) s Hlex) as HL.
      destruct (link_target E o name pn I
        (path_exists (lm_out s) name || path_lexists (lm_out s) name) s) as [s1 b] eqn:Hlt.
      cbv zeta in HL. simpl in HL.
      destruct HL as (H1 & H2 & H3 & H4 & [(Hb & H5 & H6)|(Hb & H5 & H6 & H7 & H8 & H9)]);
        subst b.
      + unfold record_link. simpl. split; [done|]. right. exists pn, I.
        split; [done|]. split; [done|]. left. rewrite H2. split; [done|]. split; [done|].
        destruct H5 as [(?&?&?)|(?&?&?)]; [left|right]; auto.
      + destruct (existsb (String.eqb picon) ["tba"; "tobeadvised"]); simpl;
          (split; [done|]); right; exists pn, I; (split; [done|]); (split; [done|]);
          right; (split; [done|]); (split; [done|]); (split; [done|]);
          (split; [done|]); (split; [|done]).
        * by left.
        * rewrite H8. right. by rewrite <- app_assoc.
    - destruct (existsb (String.eqb picon) ["tba"; "tobeadvised"]); simpl;
        (split; [done|]); left; do 5 (split; [done|]); [left|right]; done. }
  destruct (path_exists (lm_out s) name) eqn:Hex.
  - unfold isOverride.
    destruct (bool_decide (name ∈ overrides s)) eqn:Hin; simpl.
    + apply bool_decide_eq_true in Hin.
      rewrite (bool_decide_true (name ∈ overrides s)) by done. simpl.
      left. unfold set_overrides, is_ov. simpl.
      split; [split; [done|by left]|]. do 4 (split; [done|]). split; left; done.
    + apply bool_decide_eq_false in Hin.
      destruct (bool_decide (refType E (lm_out s) name = IS_FILE)) eqn:Hf; simpl.
      * apply bool_decide_eq_true in Hf.
        rewrite (bool_decide_true (name ∈ {[name]} ∪ overrides s)) by set_solver.
        left. unfold set_overrides, add_log, is_ov. simpl.
        split; [split; [done|by right]|]. do 4 (split; [done|]). split; right; done.
      * apply bool_decide_eq_false in Hf.
        try rewrite (bool_decide_false (name ∈ overrides s)) by done.
        rewrite set_overrides_id. right. apply (Hcont true); [done|].
        intros [_ [?|?]]; done.
  - rewrite set_overrides_id. right. apply (Hcont false); [done|]. intros [? _]; congruence.
Qed.

(** A target already claimed: skipped silently, or a conflict logged. *)
Lemma make_link_claimed E o pf sr picon name s k :
  piconLinks s !! name = Some k ->
  make_link E o pf sr picon name s =
    if String.eqb picon k then s else add_log (MConflict sr k picon) s.
Proof.
  intros H. unfold make_link. rewrite H.
  destruct (String.eqb_spec picon k) as [->|Hne].
  - by rewrite bool_decide_true.
  - rewrite bool_decide_false; [done|]. congruence.
Qed.

(** Names other than the target are left alone. *)
Lemma make_link_frame E o pf sr picon name s n :
  n <> name ->
  let s' := make_link E o pf sr picon name s in
  lm_out s' !! n = lm_out s !! n /\ origPiconLinks s' !! n = origPiconLinks s !! n /\
  piconLinks s' !! n = piconLinks s !! n.
Proof.
  intros Hn s'. subst s'. destruct (piconLinks s !! name) as [k|] eqn:Hpl.
  - rewrite (make_link_claimed _ _ _ _ _ _ _ k Hpl).
    destruct (String.eqb picon k); done.
  - destruct (make_link_cases E o pf sr picon name s Hpl) as
      [(_ & -> & -> & -> & _)|(_ & _ & [(_ & -> & -> & -> & _)|(pn & I & _ & Ho & HC)])];
      [done|done|].
    rewrite Ho, lookup_delete_ne by congruence.
    destruct HC as [(-> & _ & [(_ & -> & _)|(_ & -> & _)])|(-> & _ & [-> | ->] & _)];
      rewrite ?lookup_insert_ne, ?lookup_delete_ne by congruence; done.
Qed.

Lemma make_link_log E o pf sr picon name s :
  exists l, lm_log (make_link E o pf sr picon name s) = (lm_log s ++ l)%list /\
  forall m, In m l -> step_msg sr picon name (piconLinks s) m.
Proof.
  unfold step_msg. destruct (piconLinks s !! name) as [k|] eqn:Hpl.
  - rewrite (make_link_claimed _ _ _ _ _ _ _ k Hpl).
    destruct (String.eqb picon k).
    + exists []. rewrite app_nil_r. split; [done|]. intros m [].
    + exists [MConflict sr k picon]. split; [done|].
      intros m [<-|[]]. right; right; right. eauto.
  - destruct (make_link_cases E o pf sr picon name s Hpl) as
      [(_ & _ & _ & _ & _ & _ & [-> | ->])
      |(_ & _ & [(_ & _ & _ & _ & _ & [-> | ->])|(pn & I & _ & _ & HC)])].
    + exists []. rewrite app_nil_r. split; [done|]. intros m [].
    + eexists. split; [done|]. intros m [<-|[]]. auto.
    + exists []. rewrite app_nil_r. split; [done|]. intros m [].
    + eexists. split; [done|]. intros m [<-|[]]. auto.
    + destruct HC as [(_ & -> & _)|(_ & _ & _ & _ & [-> | ->] & _)].
      * exists []. rewrite app_nil_r. split; [done|]. intros m [].
      * eexists. split; [done|]. intros m [<-|[]]. eauto 10.
      * eexists. split; [done|].
        intros m [<-|[<-|[]]]; eauto 10.
Qed.

(** [piconLinks] only grows, and only at the target, with its key. *)
Lemma make_link_pl E o pf sr picon name s :
  let s' := make_link E o pf sr picon name s in
  piconLinks s' = piconLinks s \/
  (piconLinks s !! name = None /\ piconLinks s' = <[name := picon]> (piconLinks s)).
Proof.
  intros s'. subst s'. destruct (piconLinks s !! name) as [k|] eqn:Hpl.
  - rewrite (make_link_claimed _ _ _ _ _ _ _ k Hpl).
    destruct (String.eqb picon k); auto.
  - destruct (make_link_cases E o pf sr picon name s Hpl) as
      [(_ & _ & _ & -> & _)|(_ & _ & [(_ & _ & _ & -> & _)|(pn & I & _ & _ & HC)])];
      auto.
    destruct HC as [(-> & _)|(-> & _)]; auto.
Qed.

Lemma make_link_pl_sub E o pf sr picon name s :
  piconLinks s ⊆ piconLinks (make_link E o pf sr picon name s).
Proof.
  destruct (make_link_pl E o pf sr picon name s) as [->|[H ->]]; [done|].
  by apply insert_subseteq.
Qed.

End StepFacts.

Import StepFacts.

(** ** Removals: [_clean] and [clean] *)

Module CleanFacts.

Lemma remove_one_spec E s n :
  let s' := remove_one E s n in
  origPiconLinks s' = origPiconLinks s /\ overrides s' = overrides s /\
  linkedPiconNames s' = linkedPiconNames s /\ piconLinks s' = piconLinks s /\
  linksMade s' = linksMade s /\
  ((lm_out s' = delete n (lm_out s) /\ lm_log s' = lm_log s) \/
   (lm_out s' = lm_out s /\ lm_log s' = (lm_log s ++ [MCantRemove n])%list /\
    (out_ro E = true \/ lm_out s !! n = None \/ exists i, lm_out s !! n = Some (EOther i true)))).
Proof.
  intros s'. subst s'. unfold remove_one.
  destruct (os_remove E (lm_out s) n) as [out'|] eqn:Hr; simpl.
  - apply os_remove_spec in Hr as ->. repeat split; auto.
  - repeat split; auto. right. repeat split; auto.
    unfold os_remove in Hr. destruct (out_ro E); [by left|right].
    destruct (lm_out s !! n) as [[| |i [|]]|]; try done; eauto.
Qed.

Lemma clean_fold_spec E names s :
  let s' := fold_left (remove_one E) names s in
  origPiconLinks s' = origPiconLinks s /\ overrides s' = overrides s /\
  linkedPiconNames s' = linkedPiconNames s /\ piconLinks s' = piconLinks s /\
  linksMade s' = linksMade s /\
  (exists l, lm_log s' = (lm_log s ++ l)%list /\ forall m, In m l -> exists n, m = MCantRemove n) /\
  (forall n, n ∉ names -> lm_out s' !! n = lm_out s !! n) /\
  (forall n, lm_out s' !! n = lm_out s !! n \/ lm_out s' !! n = None) /\
  (forall n, n ∈ names -> lm_out s' !! n = None \/
     (In (MCantRemove n) (lm_log s') /\
      (out_ro E = true \/ exists i, lm_out s !! n = Some (EOther i true)))).
Proof.
  revert s. induction names as [|x names IH]; intros s s'; subst s'; simpl.
  - repeat split; auto.
    + exists []. rewrite app_nil_r. split; [done|]. intros m [].
    + intros n Hn. by apply not_elem_of_nil in Hn.
  - destruct (remove_one_spec E s x) as (R1 & R2 & R3 & R4 & R5 & R6).
    destruct (IH (remove_one E s x)) as (H1 & H2 & H3 & H4 & H5 & (l & Hl & Hlm) & H7 & H8 & H9).
    cbv zeta in *. rewrite H1, H2, H3, H4, H5, R1, R2, R3, R4, R5.
    do 5 (split; [done|]). split; [|split; [|split]].
    + destruct R6 as [(_ & Hg)|(_ & Hg & _)]; rewrite Hl, Hg.
      * exists l. split; [done|]. done.
      * exists (MCantRemove x :: l). rewrite <- app_assoc. split; [done|].
        intros m [<-|Hm]; eauto.
    + intros n Hn. rewrite elem_of_cons in Hn. rewrite H7 by tauto.
      destruct R6 as [(-> & _)|(-> & _)]; [|done]. rewrite lookup_delete_ne; [done|]. intros ->; tauto.
    + intros n. destruct (H8 n) as [->| ->]; [|by right].
      destruct R6 as [(-> & _)|(-> & _)]; [|by left].
      destruct (decide (n = x)) as [->|]; [right; apply lookup_delete_eq|].
      left. by rewrite lookup_delete_ne.
    + intros n Hn. rewrite elem_of_cons in Hn.
      destruct (decide (n ∈ names)) as [Hin|Hnin].
      * destruct (H9 n Hin) as [|(Hm & Hc)]; [by left|right]. split; [done|].
        destruct Hc as [|(i & Hi)]; [by left|right]. exists i.
        destruct R6 as [(Hd & _)|(Hd & _)]; rewrite Hd in Hi; [|done].
        destruct (decide (n = x)) as [->|]; [by rewrite lookup_delete_eq in Hi|].
        by rewrite lookup_delete_ne in Hi.
      * destruct Hn as [->|]; [|done]. rewrite H7 by done.
        destruct R6 as [(-> & _)|(-> & Hg & Hc)]; [left; apply lookup_delete_eq|].
        destruct Hc as [Hc|[Hc|Hc]]; [| by left|].
        -- right. split; [|by left]. rewrite Hl, Hg. apply in_or_app. left. apply in_or_app. right. by left.
        -- right. split; [|by right]. rewrite Hl, Hg. apply in_or_app. left. apply in_or_app. right. by left.
Qed.

End CleanFacts.

Import CleanFacts.

(** ** From one target to the whole file *)

Module LiftFacts.

Section Lift.

Context (E : env) (o : options) (pf : picon_files).
Variable P : LM -> Prop.
Hypothesis Hstep : forall sr picon name s, P s -> P (make_link E o pf sr picon name s).
Hypothesis Hbad : forall l s, P s -> P (add_log (MTooMany l) s) /\ P (add_log (MTooFew l) s).

Lemma record_pres sr picon srs s :
  P s -> P (make_links_record E o pf sr picon srs s).
Proof.
  unfold make_links_record. revert s. induction srs as [|srp srs IH]; intros s Hs; simpl; auto.
Qed.

Lemma lines_pres lines srpf s :
  P s -> P (make_links_lines E o pf lines srpf s).1.
Proof.
  revert srpf s. induction lines as [|line lines IH]; intros srpf s Hs; simpl; [done|].
  destruct (parse_line line) as [|l|l|sr sn pk].
  - by apply IH.
  - apply IH. by apply Hbad.
  - apply IH. by apply Hbad.
  - destruct (expand o (ref_parts sr) sn srpf) as [[srs srpf']|]; [|done].
    apply IH. by apply record_pres.
Qed.

End Lift.

Lemma lines_log E o pf lines srpf s :
  exists l, lm_log (make_links_lines E o pf lines srpf s).1 = (lm_log s ++ l)%list /\
  forall m, In m l -> lines_msg m.
Proof.
  set (P := fun s' => exists l, lm_log s' = (lm_log s ++ l)%list /\ forall m, In m l -> lines_msg m).
  apply (lines_pres E o pf P).
  - intros sr picon name s0 (l & Hl & Hm).
    destruct (make_link_log E o pf sr picon name s0) as (l' & Hl' & Hm').
    exists (l ++ l')%list. rewrite Hl', Hl, app_assoc. split; [done|].
    intros m Hin. apply in_app_or in Hin as [Hin|Hin]; [by apply Hm|].
    destruct (Hm' m Hin) as [->|[->|[(h & pn & ->)|(k & _ & ->)]]]; done.
  - intros l0 s0 (l & Hl & Hm). split.
    + exists (l ++ [MTooMany l0])%list. unfold add_log. simpl. rewrite Hl, app_assoc.
      split; [done|]. intros m Hin. apply in_app_or in Hin as [Hin|[<-|[]]]; [by apply Hm|done].
    + exists (l ++ [MTooFew l0])%list. unfold add_log. simpl. rewrite Hl, app_assoc.
      split; [done|]. intros m Hin. apply in_app_or in Hin as [Hin|[<-|[]]]; [by apply Hm|done].
  - exists []. rewrite app_nil_r. split; [done|]. intros m [].
Qed.

Lemma lines_pl E o pf lines srpf s :
  piconLinks s ⊆ piconLinks (make_links_lines E o pf lines srpf s).1.
Proof.
  apply (lines_pres E o pf (fun s' => piconLinks s ⊆ piconLinks s')).
  - intros sr picon name s0 H. etrans; [exact H|]. apply make_link_pl_sub.
  - intros l s0 H. by split.
  - done.
Qed.

Lemma record_log E o pf sr picon srs s :
  exists l, lm_log (make_links_record E o pf sr picon srs s) = (lm_log s ++ l)%list.
Proof.
  apply (record_pres E o pf (fun s' => exists l, lm_log s' = (lm_log s ++ l)%list)).
  - intros sr' picon' name s0 (l & Hl).
    destruct (make_link_log E o pf sr' picon' name s0) as (l' & Hl' & _).
    exists (l ++ l')%list. by rewrite Hl', Hl, app_assoc.
  - exists []. by rewrite app_nil_r.
Qed.

Lemma record_pl E o pf sr picon srs s :
  piconLinks s ⊆ piconLinks (make_links_record E o pf sr picon srs s).
Proof.
  apply (record_pres E o pf (fun s' => piconLinks s ⊆ piconLinks s')).
  - intros sr' picon' name s0 H. etrans; [exact H|]. apply make_link_pl_sub.
  - done.
Qed.

(** An exception at [line] ends the loop there. *)
Lemma lines_stop E o pf pre line post srpf s sr sn pk :
  parse_line line = LRecord sr sn pk ->
  (forall srpf, expand o (ref_parts sr) sn srpf = None) ->
  make_links_lines E o pf (pre ++ line :: post) srpf s =
    make_links_lines E o pf (pre ++ [line]) srpf s /\
  (make_links_lines E o pf (pre ++ [line]) srpf s).2 = true.
Proof.
  intros Hl Hx. revert srpf s. induction pre as [|a pre IH]; intros srpf s; simpl.
  - rewrite Hl, Hx. done.
  - destruct (parse_line a) as [|l|l|sr' sn' pk']; try apply IH.
    destruct (expand o (ref_parts sr') sn' srpf) as [[srs srpf']|]; [apply IH|done].
Qed.

(** The steps of a run that ends normally. *)
Lemma run_done E o lines out s :
  run E o lines out = RDone s ->
  exists s0 s1,
    cleanWrongLinks E o (makePiconFileList E).2 out = Some s0 /\
    make_links_lines E o (makePiconFileList E).1 lines None s0 = (s1, false) /\
    index_fails E (lm_out (add_log (MLinksMade (linksMade s1)) s1)) = false /\
    s = clean E (add_log (MLinksMade (linksMade s1)) s1).
Proof.
  unfold run. destruct (makePiconFileList E) as [pf lg]. simpl.
  destruct (cleanWrongLinks E o lg out) as [s0|]; [|done].
  unfold makeLinks. destruct (make_links_lines E o pf lines None s0) as [s1 b] eqn:Hm.
  destruct b; [done|].
  destruct (index_fails E _) eqn:Hi; [done|]. intros [= <-]. eauto 10.
Qed.

End LiftFacts.

Import LiftFacts.

(** ** Invariants of a run *)

Module Invariants.

Lemma linked_link_entry E o out n I :
  refType E out n = kind o -> getLinkRef out n = Some I -> link_entry o (out !! n) I.
Proof.
  unfold refType, getLinkRef, kind, link_entry.
  destruct (out !! n) as [e|]; [|destruct (useHardLinks o); discriminate].
  destruct (useHardLinks o), e as [i|t|i d].
  - case_match; [|discriminate]. intros _ Hr. simpl in Hr. congruence.
  - discriminate.
  - discriminate.
  - case_match; discriminate.
  - intros _ H. eauto.
  - discriminate.
Qed.

Lemma link_entry_linked E o out n I :
  1 <= outside E I -> link_entry o (out !! n) I -> linked_to E o out n I.
Proof.
  unfold link_entry, linked_to, kind. intros Ho.
  destruct (useHardLinks o).
  - intros H. split; [by apply (refType_hlink _ _ _ I)|]. unfold getLinkRef. by rewrite H.
  - intros (t & H & Ht). unfold refType, getLinkRef. rewrite H. done.
Qed.

Lemma link_entry_not_dir o e I i : link_entry o e I -> e <> Some (EOther i true).
Proof.
  unfold link_entry. destruct (useHardLinks o); [congruence|].
  intros (t & -> & _). congruence.
Qed.

Lemma in_keys (m : gmap string ident) n : n ∈ map fst (map_to_list m) <-> is_Some (m !! n).
Proof.
  rewrite list_elem_of_In, in_map_iff. split.
  - intros ([k v] & <- & Hin). simpl. exists v. apply elem_of_map_to_list.
    by apply list_elem_of_In.
  - intros [v Hv]. exists (n, v). split; [done|]. apply list_elem_of_In.
    by apply elem_of_map_to_list.
Qed.

(** [clean()]: the names of [origPiconLinks] are removed, or a failure
    is reported for them; nothing else changes. *)
Lemma clean_spec E s :
  let s' := clean E s in
  origPiconLinks s' = ∅ /\ overrides s' = overrides s /\ piconLinks s' = piconLinks s /\
  linksMade s' = linksMade s /\
  (exists l, lm_log s' =
     (lm_log s ++ MRemoving (length (map fst (map_to_list (origPiconLinks s)))) :: l)%list /\
     forall m, In m l -> exists n, m = MCantRemove n) /\
  (forall n, origPiconLinks s !! n = None -> lm_out s' !! n = lm_out s !! n) /\
  (forall n, lm_out s' !! n = lm_out s !! n \/ lm_out s' !! n = None) /\
  (forall n, is_Some (origPiconLinks s !! n) -> lm_out s' !! n = None \/
     (In (MCantRemove n) (lm_log s') /\
      (out_ro E = true \/ exists i, lm_out s !! n = Some (EOther i true)))).
Proof.
  intros s'. subst s'. unfold clean, _clean.
  set (names := map fst (map_to_list (origPiconLinks s))).
  destruct (clean_fold_spec E names (add_log (MRemoving (length names)) s))
    as (H1 & H2 & H3 & H4 & H5 & (l & Hl & Hm) & H7 & H8 & H9).
  cbv zeta in *. simpl in *.
  split; [done|]. split; [done|]. split; [done|]. split; [done|]. split; [|split; [|split]].
  - exists l. rewrite Hl. rewrite <- app_assoc. split; [done|]. done.
  - intros n Hn. apply H7. unfold names. rewrite in_keys. rewrite Hn. intros [? ?]; done.
  - done.
  - intros n Hn. apply H9. unfold names. by apply in_keys.
Qed.

(** The state [_cleanWrongLinks] hands to [makeLinks]. *)
Lemma cwl_spec E o lg out s0 :
  cleanWrongLinks E o lg out = Some s0 ->
  piconLinks s0 = ∅ /\ overrides s0 = ∅ /\ linksMade s0 = 0 /\ orig_ok o s0 /\
  (forall n, origPiconLinks s0 !! n =
     if cleanAll o then None
     else if is_png n && bool_decide (refType E out n = kind o) then getLinkRef out n else None) /\
  (forall n, lm_out s0 !! n = out !! n \/
     (is_png n = true /\ (refType E out n = IS_SLINK \/ refType E out n = IS_HLINK) /\
      lm_out s0 !! n = None)) /\
  (out_ro E = false -> forall n, is_png n = true -> refType E out n = kind o ->
     is_Some (origPiconLinks s0 !! n) \/ lm_out s0 !! n = None).
Proof.
  unfold cleanWrongLinks. destruct (scan_links E o out) as [[orig wrong]|] eqn:Hs; [|done].
  intros [= <-]. destruct (scan_links_spec _ _ _ _ _ Hs) as (S1 & S2 & S3).
  unfold _clean.
  set (s1 := add_log (MRemoving (length wrong)) (mkLM out orig ∅ ∅ ∅ 0 lg)).
  set (sA := fold_left (remove_one E) wrong s1).
  destruct (clean_fold_spec E wrong s1) as (A1 & A2 & A3 & A4 & A5 & _ & A7 & A8 & _).
  fold sA in A1, A2, A3, A4, A5, A7, A8. simpl in A1, A2, A3, A4, A5, A7, A8.
  assert (Hw : forall n, is_Some (orig !! n) -> n ∉ wrong).
  { intros n [I HI] Hn. apply list_elem_of_In in Hn. destruct (S2 n Hn) as (_ & _ & Hk).
    rewrite S1 in HI. destruct (is_png n && bool_decide (refType E out n = kind o)) eqn:Hc; [|done].
    apply andb_true_iff in Hc as [_ Hc]. by apply bool_decide_eq_true in Hc. }
  assert (Hor : forall n I, orig !! n = Some I ->
    is_png n = true /\ refType E out n = kind o /\ getLinkRef out n = Some I).
  { intros n I HI. rewrite S1 in HI.
    destruct (is_png n && bool_decide (refType E out n = kind o)) eqn:Hc; [|done].
    apply andb_true_iff in Hc as [Hp Hc]. by apply bool_decide_eq_true in Hc. }
  assert (OA : orig_ok o sA).
  { intros n I HI. rewrite A1 in HI. rewrite A7 by (apply Hw; eauto).
    destruct (Hor n I HI) as (_ & Hk & Hg). by apply (linked_link_entry E). }
  assert (OutA : forall n, lm_out sA !! n = out !! n \/
     (is_png n = true /\ (refType E out n = IS_SLINK \/ refType E out n = IS_HLINK) /\
      lm_out sA !! n = None)).
  { intros n. destruct (decide (n ∈ wrong)) as [Hn|Hn]; [|left; by apply A7].
    apply list_elem_of_In in Hn. destruct (S2 n Hn) as (Hp & Hl & _).
    destruct (A8 n) as [|HN]; [by left|right; done]. }
  assert (Hkind : forall n, is_png n = true -> refType E out n = kind o ->
     is_Some (orig !! n)).
  { intros n Hp Hk. rewrite S1, Hp, Hk, bool_decide_true by done. simpl.
    apply S3; [done|]. rewrite Hk. apply kind_link. }
  destruct (cleanAll o).
  - destruct (clean_spec E sA) as (C1 & C2 & C3 & C4 & _ & C6 & C7 & C8).
    cbv zeta in *. split; [by rewrite C3|]. split; [by rewrite C2|]. split; [by rewrite C4|].
    split; [intros n I; by rewrite C1, lookup_empty|].
    split; [intros n; by rewrite C1, lookup_empty|]. split.
    + intros n. destruct (origPiconLinks sA !! n) as [I|] eqn:Ho.
      * rewrite A1 in Ho. destruct (Hor n I Ho) as (Hp & Hk & _).
        assert (HA : lm_out sA !! n = out !! n) by (apply A7, Hw; eauto).
        destruct (C7 n) as [Hc|Hc]; [left; congruence|right].
        split; [done|]. split; [rewrite Hk; apply kind_link|done].
      * rewrite (C6 n Ho). apply OutA.
    + intros Hro n Hp Hk. right.
      destruct (Hkind n Hp Hk) as [I HI].
      destruct (C8 n) as [|(_ & [Hr|(i & Hi)])]; [rewrite A1; eauto|done|congruence|].
      exfalso. eapply link_entry_not_dir; [apply (OA n I); by rewrite A1|exact Hi].
  - split; [done|]. split; [done|]. split; [done|]. split; [done|].
    split; [intros n; by rewrite A1, S1|]. split; [done|].
    intros _ n Hp Hk. left. rewrite A1. by apply Hkind.
Qed.

Lemma make_link_orig E o pf sr picon name s :
  let s' := make_link E o pf sr picon name s in
  origPiconLinks s' = origPiconLinks s \/ origPiconLinks s' = delete name (origPiconLinks s).
Proof.
  intros s'. subst s'. destruct (piconLinks s !! name) as [k|] eqn:Hpl.
  - rewrite (make_link_claimed _ _ _ _ _ _ _ k Hpl). destruct (String.eqb picon k); by left.
  - destruct (make_link_cases E o pf sr picon name s Hpl) as
      [(_ & _ & -> & _)|(_ & _ & [(_ & _ & -> & _)|(pn & I & _ & -> & _)])]; auto.
Qed.

Lemma make_link_out E o pf sr picon name s m :
  let s' := make_link E o pf sr picon name s in
  lm_out s' !! m = lm_out s !! m \/ lm_out s' !! m = None \/
  (exists pn I, pf !! picon = Some (pn, I) /\ lm_out s' !! m = Some (new_entry o I)).
Proof.
  intros s'. subst s'. destruct (decide (m = name)) as [->|Hne].
  2:{ left. apply (proj1 (make_link_frame E o pf sr picon name s m Hne)). }
  destruct (piconLinks s !! name) as [k|] eqn:Hpl.
  - left. rewrite (make_link_claimed _ _ _ _ _ _ _ k Hpl). destruct (String.eqb picon k); done.
  - destruct (make_link_cases E o pf sr picon name s Hpl) as
      [(_ & -> & _)|(_ & _ & [(_ & -> & _)|(pn & I & Hpf & _ & HC)])]; [by left|by left|].
    destruct HC as [(_ & _ & [(_ & -> & _)|(_ & -> & _)])|(_ & _ & [-> | ->] & _)].
    + by left.
    + right; right. exists pn, I. split; [done|]. by rewrite lookup_insert_eq.
    + by left.
    + right; left. by rewrite lookup_delete_eq.
Qed.

Lemma claimed_ok_step E o pf sr picon name s :
  claimed_ok o pf s -> claimed_ok o pf (make_link E o pf sr picon name s).
Proof.
  intros [Hok Hcl]. destruct (piconLinks s !! name) as [k0|] eqn:Hpl.
  { rewrite (make_link_claimed _ _ _ _ _ _ _ k0 Hpl).
    destruct (String.eqb picon k0); [split; done|]. split; [exact Hok|exact Hcl]. }
  split.
  - intros n J HJ. destruct (decide (n = name)) as [->|Hne].
    2:{ destruct (make_link_frame E o pf sr picon name s n Hne) as (F1 & F2 & _).
        rewrite F1. rewrite F2 in HJ. by apply Hok. }
    destruct (make_link_cases E o pf sr picon name s Hpl) as
      [(_ & Ho & Hor & _)|(_ & _ & [(_ & Ho & Hor & _)|(pn & I & _ & Hor & _)])].
    + rewrite Ho. rewrite Hor in HJ. by apply Hok.
    + rewrite Ho. rewrite Hor in HJ. by apply Hok.
    + by rewrite Hor, lookup_delete_eq in HJ.
  - intros n k Hk. destruct (decide (n = name)) as [->|Hne].
    2:{ destruct (make_link_frame E o pf sr picon name s n Hne) as (F1 & F2 & F3).
        rewrite F1, F2. rewrite F3 in Hk. by apply Hcl. }
    destruct (make_link_cases E o pf sr picon name s Hpl) as
      [(_ & _ & _ & Hp & _)|(_ & _ & [(_ & _ & _ & Hp & _)|(pn & I & Hpf & Hor & HC)])].
    + by rewrite Hp, Hpl in Hk.
    + by rewrite Hp, Hpl in Hk.
    + rewrite Hor, lookup_delete_eq. split; [done|].
      destruct HC as [(Hp & _ & HO)|(Hp & _)]; [|by rewrite Hp, Hpl in Hk].
      rewrite Hp, lookup_insert_eq in Hk. injection Hk as <-. exists pn, I. split; [done|].
      destruct HO as [(Hh & -> & _)|(_ & -> & _)]; [by apply Hok|].
      rewrite lookup_insert_eq. apply new_entry_link.
Qed.

Lemma claimed_ok_lines E o pf lines srpf s :
  claimed_ok o pf s -> claimed_ok o pf (make_links_lines E o pf lines srpf s).1.
Proof.
  apply lines_pres.
  - intros. by apply claimed_ok_step.
  - intros l s' H. split; exact H.
Qed.

Lemma tracked_step E o pf sr picon name s n :
  out_ro E = false -> orig_ok o s -> tracked s n ->
  tracked (make_link E o pf sr picon name s) n.
Proof.
  intros Hro Hok Ht. destruct (piconLinks s !! name) as [k0|] eqn:Hpl.
  { rewrite (make_link_claimed _ _ _ _ _ _ _ k0 Hpl). destruct (String.eqb picon k0); exact Ht. }
  destruct (decide (n = name)) as [->|Hne].
  2:{ destruct (make_link_frame E o pf sr picon name s n Hne) as (F1 & F2 & F3).
      unfold tracked. by rewrite F1, F2, F3. }
  destruct (make_link_cases E o pf sr picon name s Hpl) as
    [(_ & Ho & Hor & Hp & _)|(_ & _ & [(_ & Ho & Hor & Hp & _)|(pn & I & _ & Hor & HC)])].
  - unfold tracked. by rewrite Ho, Hor, Hp.
  - unfold tracked. by rewrite Ho, Hor, Hp.
  - destruct HC as [(Hp & _)|(_ & _ & _ & _ & _ & Hgone)].
    + left. rewrite Hp, lookup_insert_eq. eauto.
    + right; right. apply Hgone; [done|]. intros i.
      destruct Ht as [[? Hs]|[[J HJ]|Hn]]; [congruence| |congruence].
      apply (link_entry_not_dir o _ J). by apply Hok.
Qed.

Lemma file_kept_step E o pf sr picon name s N X :
  (forall k pn I, pf !! k = Some (pn, I) -> 1 <= outside E I) -> outside E X = 0 ->
  file_kept N X s -> file_kept N X (make_link E o pf sr picon name s).
Proof.
  intros Hpf HX (H1 & H2 & H3).
  assert (Hc : cnt_out (lm_out (make_link E o pf sr picon name s)) X <= cnt_out (lm_out s) X).
  { apply cnt_out_mono. intros m Hm.
    destruct (make_link_out E o pf sr picon name s m) as [Heq|[Hn|(pn & I & Hp & He)]];
      [congruence|congruence|].
    rewrite He in Hm. unfold new_entry in Hm. destruct (useHardLinks o); [|discriminate].
    injection Hm as ->. specialize (Hpf _ _ _ Hp). lia. }
  enough (HN : lm_out (make_link E o pf sr picon name s) !! N = Some (EReg X) /\
               origPiconLinks (make_link E o pf sr picon name s) !! N = None).
  { destruct HN as [HN1 HN2]. split; [done|]. split; [|done].
    pose proof (cnt_out_pos _ _ _ HN1). lia. }
  destruct (decide (N = name)) as [->|Hne].
  2:{ destruct (make_link_frame E o pf sr picon name s N Hne) as (F1 & F2 & _).
      by rewrite F1, F2. }
  destruct (piconLinks s !! name) as [k0|] eqn:Hpl.
  { rewrite (make_link_claimed _ _ _ _ _ _ _ k0 Hpl). destruct (String.eqb picon k0); done. }
  destruct (make_link_cases E o pf sr picon name s Hpl) as
    [(_ & Ho & Hor & _)|(Hnov & _)]; [by rewrite Ho, Hor|].
  exfalso. apply Hnov. split.
  - unfold path_exists. by rewrite H1.
  - right. rewrite (refType_reg _ _ _ _ H1).
    replace (nlink E (lm_out s) X) with 1; [done|]. unfold nlink, outside in *. lia.
Qed.

(** One run, however it ends, keeps such a file. *)
Lemma file_kept_run E o lines out N X :
  icons_stored E -> outside E X = 0 -> out !! N = Some (EReg X) -> cnt_out out X = 1 ->
  let out' := lm_out (result_state (run E o lines out)) in
  out' !! N = Some (EReg X) /\ cnt_out out' X = 1.
Proof.
  intros Hic HX HN Hc out'. subst out'.
  assert (HF : refType E out N = IS_FILE).
  { rewrite (refType_reg _ _ _ _ HN). replace (nlink E out X) with 1; [done|].
    unfold nlink, outside in *. lia. }
  unfold run. destruct (makePiconFileList E) as [pf lg] eqn:Hmk.
  assert (Hpf : forall k pn I, pf !! k = Some (pn, I) -> 1 <= outside E I).
  { intros k pn I H. apply (Hic k pn). by rewrite Hmk. }
  destruct (cleanWrongLinks E o lg out) as [s0|] eqn:Hcw; [|done].
  destruct (cwl_spec _ _ _ _ _ Hcw) as (_ & _ & _ & _ & W1 & W2 & _).
  assert (K0 : file_kept N X s0).
  { assert (HN0 : lm_out s0 !! N = Some (EReg X)).
    { destruct (W2 N) as [->|(_ & [Hl|Hl] & _)]; [done|congruence|congruence]. }
    split; [done|]. split.
    - enough (cnt_out (lm_out s0) X <= cnt_out out X) by (pose proof (cnt_out_pos _ _ _ HN0); lia).
      apply cnt_out_mono. intros m Hm. destruct (W2 m) as [<-|(_ & _ & Hn)]; congruence.
    - rewrite W1. rewrite HF. destruct (cleanAll o); [done|].
      rewrite (bool_decide_false (IS_FILE = kind o)); [by rewrite andb_false_r|].
      destruct (kind_link o) as [-> | ->]; discriminate. }
  assert (K1 : file_kept N X (make_links_lines E o pf lines None s0).1).
  { apply lines_pres; [|intros l s' H; split; exact H|done].
    intros. by apply file_kept_step. }
  unfold makeLinks. destruct (make_links_lines E o pf lines None s0) as [s1 b]. simpl in K1.
  destruct K1 as (K1a & K1b & K1c).
  destruct b; [simpl; done|].
  destruct (index_fails E _); [simpl; done|]. cbn [result_state].
  destruct (clean_spec E (add_log (MLinksMade (linksMade s1)) s1))
    as (_ & _ & _ & _ & _ & C6 & C7 & _).
  cbv zeta in *.
  assert (HN1 : lm_out (clean E (add_log (MLinksMade (linksMade s1)) s1)) !! N = Some (EReg X))
    by (rewrite C6; [exact K1a|exact K1c]).
  split; [done|].
  enough (cnt_out (lm_out (clean E (add_log (MLinksMade (linksMade s1)) s1))) X <= cnt_out (lm_out s1) X)
    by (pose proof (cnt_out_pos _ _ _ HN1); lia).
  apply cnt_out_mono. intros m Hm. destruct (C7 m) as [Heq|Hn]; [rewrite Heq in Hm; exact Hm|congruence].
Qed.

(** Under [good], [refType] depends on the entry alone. *)
Lemma refType_local E out out' n :
  good E out -> good E out' -> out !! n = out' !! n -> refType E out n = refType E out' n.
Proof.
  intros G G' Heq. destruct (out' !! n) as [[X| |]|] eqn:H'.
  - rewrite (refType_good E out n X G) by congruence.
    by rewrite (refType_good E out' n X G' H').
  - unfold refType. by rewrite Heq, H'.
  - unfold refType. by rewrite Heq, H'.
  - unfold refType. by rewrite Heq, H'.
Qed.

Lemma getLinkRef_local out out' n :
  out !! n = out' !! n -> getLinkRef out n = getLinkRef out' n.
Proof. unfold getLinkRef. by intros ->. Qed.

Lemma make_link_ov_sub E o pf sr picon name s :
  overrides s ⊆ overrides (make_link E o pf sr picon name s).
Proof.
  destruct (piconLinks s !! name) as [k0|] eqn:Hpl.
  { rewrite (make_link_claimed _ _ _ _ _ _ _ k0 Hpl). by destruct (String.eqb picon k0). }
  destruct (make_link_cases E o pf sr picon name s Hpl) as
    [(_ & _ & _ & _ & _ & [-> | ->] & _)|(_ & -> & _)]; set_solver.
Qed.

Lemma make_link_ov E o pf sr picon name s :
  overrides (make_link E o pf sr picon name s) ⊆ {[name]} ∪ overrides s.
Proof.
  destruct (piconLinks s !! name) as [k0|] eqn:Hpl.
  { rewrite (make_link_claimed _ _ _ _ _ _ _ k0 Hpl).
    destruct (String.eqb picon k0); simpl; set_solver. }
  destruct (make_link_cases E o pf sr picon name s Hpl) as
    [(_ & _ & _ & _ & _ & [-> | ->] & _)|(_ & -> & _)]; set_solver.
Qed.

Lemma make_link_ov_mem E o pf sr picon name s :
  piconLinks s !! name = None -> is_ov E s name ->
  name ∈ overrides (make_link E o pf sr picon name s).
Proof.
  intros Hpl [Hex Hov]. unfold make_link. rewrite Hpl, bool_decide_false by done.
  rewrite Hex. unfold isOverride.
  destruct (decide (name ∈ overrides s)) as [Hin|Hin].
  - rewrite (bool_decide_true (name ∈ overrides s)) by done. simpl.
    rewrite (bool_decide_true (name ∈ overrides s)) by done. simpl.
    exact Hin.
  - destruct Hov as [|Hf]; [done|].
    rewrite (bool_decide_false (name ∈ overrides s)) by done.
    rewrite (bool_decide_true (refType E (lm_out s) name = IS_FILE)) by done. simpl.
    rewrite (bool_decide_true (name ∈ {[name]} ∪ overrides s)) by set_solver. simpl.
    set_solver.
Qed.

Lemma make_link_good E o pf sr picon name s :
  (forall k pn I, pf !! k = Some (pn, I) -> 1 <= outside E I) ->
  good E (lm_out s) -> good E (lm_out (make_link E o pf sr picon name s)).
Proof.
  intros Hpf G. apply (good_preserved E (lm_out s)); [done|].
  intros n X Hn. destruct (make_link_out E o pf sr picon name s n) as [Heq|[Hn'|(pn & I & Hp & He)]].
  - left. congruence.
  - congruence.
  - right. rewrite He in Hn. unfold new_entry in Hn.
    destruct (useHardLinks o); [|discriminate]. injection Hn as <-. by apply (Hpf picon pn).
Qed.

Lemma record_ov E o pf sr picon srs s :
  overrides s ⊆ overrides (make_links_record E o pf sr picon srs s).
Proof.
  apply (record_pres E o pf (fun s' => overrides s ⊆ overrides s')); [|done].
  intros sr' picon' name s0 H. etrans; [exact H|]. apply make_link_ov_sub.
Qed.

Lemma lines_ov E o pf lines srpf s :
  overrides s ⊆ overrides (make_links_lines E o pf lines srpf s).1.
Proof.
  apply (lines_pres E o pf (fun s' => overrides s ⊆ overrides s')); [| |done].
  - intros sr' picon' name s0 H. etrans; [exact H|]. apply make_link_ov_sub.
  - intros l s0 H. by split.
Qed.

Lemma file_plain E out n : good E out -> refType E out n = IS_FILE -> plain E out n.
Proof.
  intros G Hf. destruct (out !! n) as [[X| |]|] eqn:Hn;
    [|unfold refType in Hf; rewrite Hn in Hf; discriminate..].
  exists X. split; [done|]. rewrite (refType_good E out n X G Hn) in Hf.
  destruct (Nat.leb_spec 1 (outside E X)); [discriminate|lia].
Qed.

Lemma plain_not_link E o out n I :
  (1 <= outside E I) -> plain E out n -> link_entry o (out !! n) I -> False.
Proof.
  intros HI (X & Hx & HX). unfold link_entry. rewrite Hx.
  destruct (useHardLinks o); [intros [= ->]; lia|]. intros (t & Ht & _). discriminate.
Qed.

Lemma plain_is_ov E s n : plain E (lm_out s) n -> n ∈ overrides s -> is_ov E s n.
Proof. intros (X & Hx & _) Hn. split; [unfold path_exists; by rewrite Hx|by left]. Qed.

Lemma kind_not_file o : kind o <> IS_FILE.
Proof. destruct (kind_link o) as [-> | ->]; discriminate. Qed.

Lemma inv1_step E o pf sr picon name s :
  (forall k pn I, pf !! k = Some (pn, I) -> 1 <= outside E I) ->
  inv1 E o pf s -> free_log (lm_log (make_link E o pf sr picon name s)) ->
  inv1 E o pf (make_link E o pf sr picon name s).
Proof.
  intros Hpf Hinv Hfree. pose proof Hinv as (G & CO & OK & OV & K & W).
  pose proof (make_link_good E o pf sr picon name s Hpf G) as G'.
  pose proof (claimed_ok_step E o pf sr picon name s CO) as CO'.
  pose proof (make_link_ov E o pf sr picon name s) as Hsub.
  pose proof (make_link_frame E o pf sr picon name s) as Fr.
  cbv zeta in Fr.
  destruct (piconLinks s !! name) as [k0|] eqn:Hpl.
  { rewrite (make_link_claimed _ _ _ _ _ _ _ k0 Hpl). by destruct (String.eqb picon k0). }
  unfold inv1. split; [exact G'|]. split; [exact CO'|].
  destruct (make_link_cases E o pf sr picon name s Hpl) as
    [(Hisov & Ho & Hor & Hp & _)
    |(Hnov & Hov & [(_ & Ho & Hor & Hp & _)|(pn & I & HpfI & Hor & HC)])].
  - rewrite Ho, Hor, Hp. split; [exact OK|]. split; [|split; [exact K|exact W]].
    intros n Hn. apply Hsub, elem_of_union in Hn as [Hn|Hn]; [|by apply OV].
    apply elem_of_singleton in Hn as ->.
    destruct Hisov as [Hex [Hin|Hf]]; [by apply OV|].
    split; [by apply file_plain|]. split; [|done].
    destruct (origPiconLinks s !! name) as [J|] eqn:HJ; [|done].
    destruct (OK _ _ HJ) as [_ Hk]. rewrite Hf in Hk. by destruct (kind_not_file o).
  - rewrite Ho, Hor, Hp, Hov. exact (conj OK (conj OV (conj K W))).
  - destruct HC as [(Hp & _ & HO)|(_ & _ & _ & _ & Hlog & _)].
    2:{ exfalso. assert (Hin : In (MLinkFailed (useHardLinks o) pn name)
          (lm_log (make_link E o pf sr picon name s))).
        { destruct Hlog as [-> | ->]; apply in_or_app; right; by left. }
        by specialize (Hfree _ Hin). }
    assert (Hloc : forall n, n <> name ->
      refType E (lm_out (make_link E o pf sr picon name s)) n = refType E (lm_out s) n).
    { intros n Hn. apply refType_local; [done|done|]. apply (Fr n Hn). }
    split; [|split; [|split]].
    + intros n J HJ. destruct (decide (n = name)) as [->|Hn].
      { by rewrite Hor, lookup_delete_eq in HJ. }
      rewrite Hor, lookup_delete_ne in HJ by congruence. rewrite Hloc by done.
      by apply (OK n J).
    + intros n Hn. rewrite Hov in Hn.
      destruct (decide (n = name)) as [->|Hne].
      { exfalso. apply Hnov. apply plain_is_ov; [|done]. by apply OV. }
      destruct (OV n Hn) as ((X & Hx & HX) & Ho' & Hp').
      destruct (Fr n Hne) as (F1 & F2 & F3).
      split; [exists X; by rewrite F1|]. by rewrite F2, F3.
    + intros n Hpn Hk. destruct (decide (n = name)) as [->|Hne].
      { left. rewrite Hp, lookup_insert_eq. eauto. }
      destruct (Fr n Hne) as (F1 & F2 & F3). rewrite F2, F3.
      apply K; [done|]. by rewrite <- Hloc.
    + intros n Hpn Hl. destruct (decide (n = name)) as [->|Hne].
      * destruct HO as [(_ & Ho & _)|(_ & Ho & _)].
        -- rewrite Ho in Hl |- *. by apply W.
        -- assert (Hlk : linked_to E o (lm_out (make_link E o pf sr picon name s)) name I).
           { apply link_entry_linked; [by apply (Hpf picon pn)|].
             rewrite Ho, lookup_insert_eq. apply new_entry_link. }
           destruct Hlk as [Hk Hg]. split; [done|]. rewrite Hg. eauto.
      * destruct (Fr n Hne) as (F1 & _ & _). rewrite Hloc in Hl |- * by done.
        rewrite (getLinkRef_local _ _ n F1). by apply W.
Qed.

Lemma free_log_app l1 l2 : free_log (l1 ++ l2) -> free_log l1.
Proof. intros H m Hm. apply H, in_or_app. by left. Qed.

Lemma lines_inv1 E o pf lines srpf s :
  (forall k pn I, pf !! k = Some (pn, I) -> 1 <= outside E I) ->
  inv1 E o pf s -> free_log (lm_log (make_links_lines E o pf lines srpf s).1) ->
  inv1 E o pf (make_links_lines E o pf lines srpf s).1.
Proof.
  intros Hpf Hs. apply (lines_pres E o pf (fun s' => free_log (lm_log s') -> inv1 E o pf s')).
  - intros sr picon name s0 H Hf. apply inv1_step; [done| |done]. apply H.
    destruct (make_link_log E o pf sr picon name s0) as (l & Hl & _).
    rewrite Hl in Hf. by apply free_log_app in Hf.
  - intros l s0 H. split; intros Hf; apply H; by apply free_log_app in Hf.
  - by intros _.
Qed.

Lemma plain_file E out n : good E out -> plain E out n -> refType E out n = IS_FILE.
Proof.
  intros G (X & Hx & HX). rewrite (refType_good E out n X G Hx), HX. done.
Qed.

Lemma plain_exists E out n : plain E out n -> path_exists out n = true.
Proof. intros (X & Hx & _). unfold path_exists. by rewrite Hx. Qed.

Lemma record_cons E o pf sr picon srp srs s :
  make_links_record E o pf sr picon (srp :: srs) s =
  make_links_record E o pf sr picon srs (make_link E o pf sr picon (target_name srp) s).
Proof. done. Qed.

Section Second.

Context (E : env) (o : options) (pf : picon_files) (F : gmap string entry).
Variables (PLend : gmap string string) (OVend : gset string).
Hypothesis Hpf : forall k pn I, pf !! k = Some (pn, I) -> 1 <= outside E I.
Hypothesis GF : good E F.
Hypothesis FF1 : forall n k, PLend !! n = Some k ->
  is_png n = true /\ exists pn I, pf !! k = Some (pn, I) /\ link_entry o (F !! n) I.
Hypothesis FF2 : forall n, n ∈ OVend -> plain E F n.

Lemma sim_ov_step sr picon name s2 :
  lm_out s2 = F -> (forall n, n ∈ overrides s2 -> plain E F n) ->
  piconLinks s2 !! name = None -> is_ov E s2 name ->
  forall n, n ∈ overrides (make_link E o pf sr picon name s2) -> plain E F n.
Proof.
  intros Ho Hov Hpl Hisov n Hn. apply make_link_ov, elem_of_union in Hn as [Hn|Hn]; [|by apply Hov].
  apply elem_of_singleton in Hn as ->. destruct Hisov as [_ [Hin|Hf]]; [by apply Hov|].
  rewrite Ho in Hf. by apply file_plain.
Qed.

Lemma sim_step sr picon name s1 s2 :
  sim E o F s1 s2 ->
  piconLinks (make_link E o pf sr picon name s1) ⊆ PLend ->
  overrides (make_link E o pf sr picon name s1) ⊆ OVend ->
  free_log (lm_log (make_link E o pf sr picon name s1)) ->
  sim E o F (make_link E o pf sr picon name s1) (make_link E o pf sr picon name s2).
Proof.
  intros Hsim HPL HOV Hfree. pose proof Hsim as (Hp & Ho & Hm & Hov & Hor).
  destruct (piconLinks s1 !! name) as [k0|] eqn:Hpl1.
  { assert (Hpl2 : piconLinks s2 !! name = Some k0) by by rewrite Hp.
    rewrite (make_link_claimed _ _ _ _ _ _ _ k0 Hpl1), (make_link_claimed _ _ _ _ _ _ _ k0 Hpl2).
    by destruct (String.eqb picon k0). }
  assert (Hpl2 : piconLinks s2 !! name = None) by by rewrite Hp.
  (* the second run leaves everything but the overrides alone *)
  assert (Hkeep : is_ov E s2 name \/ pf !! picon = None ->
    sim E o F (make_link E o pf sr picon name s1) (make_link E o pf sr picon name s2) <->
    piconLinks (make_link E o pf sr picon name s1) = piconLinks s1).
  { intros Hc. destruct (make_link_cases E o pf sr picon name s2 Hpl2) as
      [(Hisov & Ho2 & Hor2 & Hp2 & Hm2 & _)
      |(Hnov & Hov2 & [(_ & Ho2 & Hor2 & Hp2 & Hm2 & _)|(pn & I & HpfI & _)])].
    - unfold sim. rewrite Ho2, Hor2, Hp2, Hm2. split.
      + intros (Hp' & _). congruence.
      + intros Hp1. rewrite Hp1. do 3 (split; [done|]). split; [|done].
        by apply (sim_ov_step sr picon name s2).
    - unfold sim. rewrite Ho2, Hor2, Hp2, Hm2, Hov2. split.
      + intros (Hp' & _). congruence.
      + intros Hp1. rewrite Hp1. done.
    - exfalso. destruct Hc as [Hc|Hc]; [done|congruence]. }
  destruct (make_link_cases E o pf sr picon name s1 Hpl1) as
    [(Hisov1 & _ & _ & Hp1 & _)
    |(Hnov1 & _ & [(HpfN & _ & _ & Hp1 & _)|(pn & I & HpfI & Hor1 & HC)])].
  - apply Hkeep; [|done]. left.
    assert (Hpn : plain E F name) by (apply FF2, HOV; by apply make_link_ov_mem).
    split; [rewrite Ho; by apply (plain_exists E)|]. right. rewrite Ho. by apply plain_file.
  - apply Hkeep; [by right|done].
  - destruct HC as [(Hp1 & _ & _)|(_ & _ & _ & _ & Hlog & _)].
    2:{ exfalso. assert (Hin : In (MLinkFailed (useHardLinks o) pn name)
          (lm_log (make_link E o pf sr picon name s1))).
        { destruct Hlog as [-> | ->]; apply in_or_app; right; by left. }
        by specialize (Hfree _ Hin). }
    assert (Hend : PLend !! name = Some picon).
    { eapply lookup_weaken; [|exact HPL]. rewrite Hp1. apply lookup_insert_eq. }
    destruct (FF1 _ _ Hend) as (Hpng & pn' & I' & HpfI' & Hle).
    rewrite HpfI in HpfI'. injection HpfI' as <- <-.
    assert (HI : 1 <= outside E I) by by apply (Hpf picon pn).
    destruct (link_entry_linked E o F name I HI Hle) as [Hk Hg].
    assert (Horig2 : origPiconLinks s2 !! name = Some I).
    { rewrite Hor, Hpl1. unfold scan_orig. rewrite Hpng, Hk, bool_decide_true by done. done. }
    assert (Hnov2 : ~ is_ov E s2 name).
    { intros [_ [Hin|Hf]].
      - apply (plain_not_link E o F name I HI); [by apply Hov|done].
      - rewrite Ho, Hk in Hf. by apply (kind_not_file o). }
    destruct (make_link_cases E o pf sr picon name s2 Hpl2) as
      [(Hisov2 & _)
      |(_ & Hov2 & [(HpfN & _)|(pn2 & I2 & HpfI2 & Hor2 & HC2)])];
      [done|congruence|].
    rewrite HpfI in HpfI2. injection HpfI2 as <- <-.
    destruct HC2 as [(Hp2 & _ & [(_ & Ho2 & Hm2)|(Hne & _)])|(_ & Hne & _)]; [|congruence..].
    unfold sim. rewrite Hp2, Hp1, Hp, Ho2, Hm2, Hov2, Hor2. do 4 (split; [done|]).
    intros n. destruct (decide (n = name)) as [->|Hne].
    + by rewrite lookup_delete_eq, lookup_insert_eq.
    + rewrite lookup_delete_ne, lookup_insert_ne by congruence. apply Hor.
Qed.

Lemma sim_record sr picon srs s1 s2 :
  sim E o F s1 s2 ->
  piconLinks (make_links_record E o pf sr picon srs s1) ⊆ PLend ->
  overrides (make_links_record E o pf sr picon srs s1) ⊆ OVend ->
  free_log (lm_log (make_links_record E o pf sr picon srs s1)) ->
  sim E o F (make_links_record E o pf sr picon srs s1) (make_links_record E o pf sr picon srs s2).
Proof.
  revert s1 s2. induction srs as [|srp srs IH]; intros s1 s2 Hsim HPL HOV Hfree; [done|].
  rewrite !record_cons in *. apply IH; [|done|done|done].
  set (s1' := make_link E o pf sr picon (target_name srp) s1) in *.
  apply sim_step; [done| | |].
  - etrans; [apply (record_pl E o pf sr picon srs s1')|done].
  - etrans; [apply (record_ov E o pf sr picon srs s1')|done].
  - destruct (record_log E o pf sr picon srs s1') as (l & Hl). rewrite Hl in Hfree.
    by apply free_log_app in Hfree.
Qed.

Lemma sim_lines lines srpf s1 s2 e1 :
  sim E o F s1 s2 ->
  make_links_lines E o pf lines srpf s1 = (e1, false) ->
  piconLinks e1 ⊆ PLend -> overrides e1 ⊆ OVend -> free_log (lm_log e1) ->
  exists e2, make_links_lines E o pf lines srpf s2 = (e2, false) /\ sim E o F e1 e2.
Proof.
  revert srpf s1 s2. induction lines as [|line lines IH]; intros srpf s1 s2 Hsim Hl HPL HOV Hfree;
    simpl in Hl |- *.
  - injection Hl as <-. eauto.
  - destruct (parse_line line) as [|l|l|sr sn pk].
    + by apply (IH srpf s1 s2).
    + by apply (IH srpf (add_log (MTooMany l) s1) (add_log (MTooMany l) s2)).
    + by apply (IH srpf (add_log (MTooFew l) s1) (add_log (MTooFew l) s2)).
    + destruct (expand o (ref_parts sr) sn srpf) as [[srs srpf']|]; [|done].
      apply (IH srpf' (make_links_record E o pf sr pk srs s1)); [|done|done|done|done].
      pose proof (lines_pl E o pf lines srpf' (make_links_record E o pf sr pk srs s1)) as H1.
      pose proof (lines_ov E o pf lines srpf' (make_links_record E o pf sr pk srs s1)) as H2.
      destruct (lines_log E o pf lines srpf' (make_links_record E o pf sr pk srs s1))
        as (l & H3 & _).
      rewrite Hl in H1, H2, H3. simpl in H1, H2, H3.
      apply sim_record; [done|by etrans|by etrans|].
      rewrite H3 in Hfree. by apply free_log_app in Hfree.
Qed.

End Second.

Lemma link_entry_some o e I : link_entry o e I -> is_Some e.
Proof. unfold link_entry. destruct (useHardLinks o); [intros ->|intros (t & -> & _)]; eauto. Qed.

(** Without [cleanAll], a failure-free [_cleanWrongLinks] on a good
    directory starts the first run in the invariant. *)
Lemma cwl_inv1 E o pf lg out s0 :
  cleanAll o = false -> good E out -> cleanWrongLinks E o lg out = Some s0 ->
  free_log (lm_log s0) -> inv1 E o pf s0.
Proof.
  intros Hca G Hc Hfree.
  destruct (cwl_spec E o lg out s0 Hc) as (C1 & C2 & C3 & C4 & C5 & C6 & _).
  rewrite Hca in C5.
  unfold cleanWrongLinks in Hc. destruct (scan_links E o out) as [[orig wrong]|] eqn:Hs; [|done].
  rewrite Hca in Hc. injection Hc as Hc.
  destruct (scan_links_spec _ _ _ _ _ Hs) as (S1 & S2 & S3).
  assert (Gs : good E (lm_out s0)).
  { apply (good_preserved E out); [done|]. intros n X Hn.
    destruct (C6 n) as [Hq|(_ & _ & Hq)]; rewrite Hq in Hn; [by left|done]. }
  assert (Hsame : forall n, is_Some (lm_out s0 !! n) -> lm_out s0 !! n = out !! n).
  { intros n [e He]. destruct (C6 n) as [Hq|(_ & _ & Hq)]; congruence. }
  assert (Hrt : forall n, is_Some (lm_out s0 !! n) -> refType E (lm_out s0) n = refType E out n).
  { intros n Hn. apply refType_local; [done|done|]. by apply Hsame. }
  unfold inv1. split; [done|]. split.
  { split; [done|]. intros n k. by rewrite C1, lookup_empty. }
  split; [|split; [|split]].
  - intros n I HI. pose proof (C4 n I HI) as Hle. rewrite C5 in HI.
    destruct (is_png n && bool_decide (refType E out n = kind o)) eqn:Hb; [|done].
    apply andb_true_iff in Hb as [Hp Hb]. apply bool_decide_eq_true in Hb.
    split; [done|]. rewrite Hrt; [done|]. by apply (link_entry_some o _ I).
  - intros n Hn. rewrite C2 in Hn. set_solver.
  - intros n Hp Hk. right.
    assert (Hs0 : is_Some (lm_out s0 !! n)) by (apply (refType_link_some E); rewrite Hk; apply kind_link).
    rewrite Hrt in Hk by done. rewrite C5, Hp, Hk, bool_decide_true by done. simpl.
    apply S3; [done|]. rewrite Hk. apply kind_link.
  - intros n Hp Hl.
    assert (Hs0 : is_Some (lm_out s0 !! n)) by by apply (refType_link_some E).
    rewrite Hrt in Hl |- * by done.
    rewrite (getLinkRef_local _ out n) by by apply Hsame.
    destruct (decide (refType E out n = kind o)) as [Hk|Hnk]; [split; [done|by apply S3]|].
    exfalso. pose proof (scan_links_wrong E o out orig wrong n Hs Hp Hl Hnk) as Hw.
    apply list_elem_of_In in Hw.
    destruct (clean_fold_spec E wrong (add_log (MRemoving (length wrong)) (mkLM out orig ∅ ∅ ∅ 0 lg)))
      as (_ & _ & _ & _ & _ & _ & _ & _ & A9).
    cbv zeta in A9. unfold _clean in Hc. rewrite Hc in A9.
    destruct (A9 n Hw) as [HN|(Hm & _)].
    + destruct Hs0 as [e He]. congruence.
    + by specialize (Hfree _ Hm).
Qed.

(** [_cleanWrongLinks] on a directory whose png links all have the kept
    kind and a target: nothing removed, the scan as the baseline. *)
Lemma cwl_rerun E o lg F :
  cleanAll o = false ->
  (forall n, is_png n = true -> (refType E F n = IS_SLINK \/ refType E F n = IS_HLINK) ->
     refType E F n = kind o /\ is_Some (getLinkRef F n)) ->
  exists orig, cleanWrongLinks E o lg F = Some (mkLM F orig ∅ ∅ ∅ 0 (lg ++ [MRemoving 0])%list) /\
    forall n, orig !! n = scan_orig E o F n.
Proof.
  intros Hca HW. destruct (scan_fold_ok E o F (map_to_list F) ∅ [] HW) as [orig Hs].
  exists orig. assert (Hs' : scan_links E o F = Some (orig, [])) by exact Hs.
  unfold cleanWrongLinks. rewrite Hs', Hca. split; [reflexivity|].
  intros n. destruct (scan_links_spec _ _ _ _ _ Hs') as (S1 & _). apply S1.
Qed.

(** A run that ends normally, from its steps. *)
Lemma run_intro E o lines out s0 s1 :
  cleanWrongLinks E o (makePiconFileList E).2 out = Some s0 ->
  make_links_lines E o (makePiconFileList E).1 lines None s0 = (s1, false) ->
  index_fails E (lm_out s1) = false ->
  run E o lines out = RDone (clean E (add_log (MLinksMade (linksMade s1)) s1)).
Proof.
  unfold run. destruct (makePiconFileList E) as [pf lg]. simpl.
  intros Hc Hm Hi. rewrite Hc. unfold makeLinks. rewrite Hm. simpl. by rewrite Hi.
Qed.

(** [clean] with nothing left to remove only logs [Removing 0]. *)
Lemma clean_empty E s :
  origPiconLinks s = ∅ -> clean E s = set_orig ∅ (add_log (MRemoving 0) s).
Proof. intros H. unfold clean, _clean. by rewrite H, map_to_list_empty. Qed.

Lemma good_empty E : good E ∅.
Proof. intros n X H. by rewrite lookup_empty in H. Qed.

End Invariants.

Import Invariants.

(** ** The [addfold] block *)

Module ExpandFacts.

(** [int] raises in the alias test of the [addfold] block. *)
Lemma addfold_block_alias_raises parts srs srpf st :
  (nth_error parts 2 ≫= int16) = Some st -> in_codes st [2; 10]%Z = true ->
  ((nth_error parts 5 ≫= int16) = None \/
   exists v5, (nth_error parts 5 ≫= int16) = Some v5 /\
     in_codes v5 [4112; 12801]%Z = true /\ (nth_error parts 3 ≫= int16) = None) ->
  addfold_block parts srs srpf = None.
Proof.
  intros H2 Hc H5. unfold addfold_block.
  apply bind_Some in H2 as (p2 & E2 & H2). rewrite E2. cbn [mbind option_bind].
  rewrite H2. cbn [mbind option_bind].
  destruct (negb (in_codes st [1; 2; 10]%Z)); cbv zeta; rewrite Hc;
    (destruct H5 as [H5|(v5 & H5 & Hc5 & H3)];
     [ apply bind_None in H5 as [E5|(p5 & E5 & H5)];
       [rewrite E5; done | rewrite E5; cbn [mbind option_bind]; rewrite H5; done]
     | apply bind_Some in H5 as (p5 & E5 & H5); rewrite E5; cbn [mbind option_bind];
       rewrite H5; cbn [mbind option_bind]; rewrite Hc5;
       apply bind_None in H3 as [E3|(p3 & E3 & H3)];
       [rewrite E3; done | rewrite E3; cbn [mbind option_bind]; rewrite H3; done]]).
Qed.

End ExpandFacts.

Import ExpandFacts.

(** ** Facts of the concrete inputs *)

Module ScenarioFacts.

Lemma env_k1_stored : icons_stored env_k1.
Proof.
  intros k pn I H.
  assert (Hf : (makePiconFileList env_k1).1 = {["k1" := ("k1.png", (0%N, 1%N))]})
    by (vm_compute; reflexivity).
  rewrite Hf in H. apply lookup_singleton_Some in H as [_ H]. injection H as _ <-.
  vm_compute. lia.
Qed.

Lemma free_log_forallb l : forallb (fun m => negb (is_failure m)) l = true -> free_log l.
Proof.
  intros H m Hm. rewrite forallb_forall in H. specialize (H m Hm). by destruct (is_failure m).
Qed.

Lemma png_claimed_bool (s : LM) :
  bool_decide (map_Forall (fun n (_ : string) => is_png n = true) (piconLinks s)) = true ->
  forall n k, piconLinks s !! n = Some k -> is_png n = true.
Proof. intros H n k Hn. apply bool_decide_eq_true in H. exact (H n k Hn). Qed.

End ScenarioFacts.

Import ScenarioFacts.

(** * The claims *)

Module Claims.

(** C6: the record [1:0:2:4A:6:1010:0:0:0:0] under [addfold] alone yields
    only its full target, whatever the service name and the value of
    [servRefPartsFold].  The record passes the type-1 guard; its service
    type 2 is in {0x1, 0x2, 0xA}, so nothing is folded; of the alias test
    of line 226 it passes [stype in (0x2, 0xA)] and
    [int(parts[5], 16) in (0x1010, 0x3201)], and fails only
    [int(parts[3], 16) & 0xF == 0xF] ([0x4A & 0xF = 0xA]).  The same record
    with field 3 [4F] gets the alias with service type A. *)
Theorem addfold_abc_single_target sn srpf :
  let parts := ref_parts abc_ref in
  expand opts_addfold parts sn srpf = Some ([parts], srpf) /\
  map target_name [parts] = ["1_0_2_4A_6_1010_0_0_0_0.png"] /\
  ref_type_one parts = Some true /\
  (nth_error parts 2 ≫= int16) = Some 2%Z /\
  in_codes 2 [1; 2; 10]%Z = true /\ in_codes 2 [2; 10]%Z = true /\
  (nth_error parts 5 ≫= int16) = Some 4112%Z /\ in_codes 4112 [4112; 12801]%Z = true /\
  (nth_error parts 3 ≫= int16) = Some 74%Z /\ Z.land 74 15 = 10%Z /\
  (exists r, expand opts_addfold (ref_parts "1:0:2:4F:6:1010:0:0:0:0") sn srpf = Some r /\
     map target_name r.1 = ["1_0_2_4F_6_1010_0_0_0_0.png"; "1_0_A_4F_6_1010_0_0_0_0.png"]).
Proof. vm_compute. split_and!; try reflexivity. eexists. split; reflexivity. Qed.

(** C6 (counterexample): the expansion has one target, not three. *)
Lemma addfold_abc_not_three :
  exists r, expand opts_addfold (ref_parts abc_ref) "abcnews" None = Some r /\ length r.1 = 1%nat.
Proof. eexists. split; reflexivity. Qed.

(** C5: under [fold] alone, a type-1 record whose service type is in
    {0x1, 0x2, 0xA} still gets a folded target: the value left in
    [servRefPartsFold] by an earlier record (here the data service's
    folded target), and an [UnboundLocalError] when there is none. *)
Theorem fold_reuses_stale_target :
  let F := ["1"; "0"; "1"; "4A"; "6"; "85"; "0"; "0"; "0"; "0"] in
  parse_line data_line = LRecord "1:0:19:4A:6:85:0:0:0:0" "Data" "abc" /\
  parse_line tv_line = LRecord "1:0:1:33:6:85:0:0:0:0" "TV" "abc" /\
  expand opts_fold (ref_parts "1:0:19:4A:6:85:0:0:0:0") "Data" None = Some ([F], Some F) /\
  expand opts_fold (ref_parts "1:0:1:33:6:85:0:0:0:0") "TV" (Some F) = Some ([F], Some F) /\
  expand opts_fold (ref_parts "1:0:1:33:6:85:0:0:0:0") "TV" None = None /\
  (exists s, run env_none opts_fold [tv_line] ∅ = RRaise s).
Proof. vm_compute. repeat split. eexists. reflexivity. Qed.

(** C7: a record whose field 0 is not a decimal number, whose field 2 is
    not hexadecimal, or (under [addfold]) whose field 5 or 3 is not
    hexadecimal where the alias test reads it, makes [int] raise when
    [fold] or [addfold] is set.  Nothing catches the [ValueError]: the
    loop stops at that record, the run is the same as if the file ended
    there, and it does not end normally. *)
Theorem parse_error_stops_run E o pre line post out sr sn pk :
  parse_line line = LRecord sr sn pk ->
  (fold o || addfold o) = true ->
  let parts := ref_parts sr in
  (ref_type_one parts = None \/
   (ref_type_one parts = Some true /\ (nth_error parts 2 ≫= int16) = None) \/
   (addfold o = true /\ ref_type_one parts = Some true /\
    exists st, (nth_error parts 2 ≫= int16) = Some st /\ in_codes st [2; 10]%Z = true /\
      ((nth_error parts 5 ≫= int16) = None \/
       exists v5, (nth_error parts 5 ≫= int16) = Some v5 /\
         in_codes v5 [4112; 12801]%Z = true /\ (nth_error parts 3 ≫= int16) = None))) ->
  (forall srpf, expand o parts sn srpf = None) /\
  run E o (pre ++ line :: post) out = run E o (pre ++ [line]) out /\
  (forall s, run E o (pre ++ line :: post) out <> RDone s).
Proof.
  intros Hl Ho parts Hbad.
  assert (Hx : forall srpf, expand o parts sn srpf = None).
  { intros srpf. unfold expand.
    assert (Hf : addfold o = false -> fold o = true).
    { intros Ha. rewrite Ha, orb_false_r in Ho. done. }
    destruct Hbad as [Hr|[[Hr H2]|(Ha & Hr & st & H2 & Hc & H5)]].
    - rewrite Hr. destruct (addfold o) eqn:Ha; [done|].
      rewrite (Hf eq_refl). done.
    - rewrite Hr. unfold addfold_block, fold_block.
      destruct (nth_error parts 2) as [p2|]; simpl in H2 |- *; [rewrite H2|];
        (destruct (addfold o) eqn:Ha; [done|]); rewrite (Hf eq_refl); done.
    - rewrite Ha, Hr. cbn iota.
      rewrite (addfold_block_alias_raises parts _ srpf st H2 Hc H5). done. }
  split; [done|].
  assert (Hrun : run E o (pre ++ line :: post) out = run E o (pre ++ [line]) out /\
                 exists s, run E o (pre ++ [line]) out = RRaise s \/
                           run E o (pre ++ [line]) out = RExit s).
  { unfold run. destruct (makePiconFileList E) as [pf lg].
    destruct (cleanWrongLinks E o lg out) as [s0|]; [|eauto].
    unfold makeLinks.
    destruct (lines_stop E o pf pre line post None s0 sr sn pk Hl Hx) as [Heq Hr].
    rewrite Heq. destruct (make_links_lines E o pf (pre ++ [line]) None s0) as [s1 b].
    simpl in Hr. subst b. eauto. }
  destruct Hrun as [Heq (s & Hs)]. split; [done|].
  intros s' H. rewrite Heq in H. destruct Hs as [Hs|Hs]; congruence.
Qed.

(** C7 (witness): a record with field 0 [abc] under [fold]. *)
Lemma parse_error_stops_run_witness :
  (forall srpf, expand opts_fold (ref_parts "abc:0:1:0:0:0:0:0:0:0") "X" srpf = None) /\
  run env_sbs opts_fold ([] ++ bad_line :: [data_line]) ∅ = run env_sbs opts_fold ([] ++ [bad_line]) ∅ /\
  (forall s, run env_sbs opts_fold ([] ++ bad_line :: [data_line]) ∅ <> RDone s).
Proof.
  apply (parse_error_stops_run env_sbs opts_fold [] bad_line [data_line] ∅
           "abc:0:1:0:0:0:0:0:0:0" "X" "abc").
  - vm_compute. reflexivity.
  - reflexivity.
  - left. vm_compute. reflexivity.
Defined.

(** C7 (counterexample): the bad record raises, and the valid record after
    it, which alone would be linked, is never processed. *)
Lemma parse_error_skips_later_records :
  (exists s, run env_sbs opts_fold [bad_line; data_line] ∅ = RRaise s /\ lm_out s = ∅) /\
  (exists s, run env_sbs opts_fold [data_line] ∅ = RDone s /\
     lm_out s !! "1_0_1_4A_6_85_0_0_0_0.png" = Some (ESym (TFile (0%N, 1%N)))).
Proof. split; eexists; split; vm_compute; reflexivity. Qed.

(** C9: an inventory file [base.png] whose base name has no source suffix
    and is already a key keeps the earlier owner of the key, and nothing
    is logged: the step leaves the inventory and the log as they were. *)
Theorem scan_icon_taken_base files lg name e base ref :
  splitext name = (base, ".png") -> file_ident e = Some ref ->
  (forall pre suf, rsplit_last "_"%char base = Some (pre, suf) -> pre = "" \/ ~ In suf PICON_SRCS) ->
  is_Some (files !! base) ->
  scan_icon (files, lg) (name, e) = (files, lg).
Proof.
  intros Hs Hf Hsuf [v Hv]. unfold scan_icon. rewrite Hs.
  destruct (rsplit_last "_"%char base) as [[pre suf]|] eqn:Hr.
  - destruct (Hsuf pre suf eq_refl) as [->|Hn].
    + simpl. rewrite Hf. simpl. rewrite bool_decide_false by congruence. done.
    + assert (He : existsb (String.eqb suf) PICON_SRCS = false).
      { apply not_true_iff_false. intros He.
        apply existsb_exists in He as (x & Hx & Heq). apply String.eqb_eq in Heq.
        subst x. done. }
      rewrite He, andb_false_r. simpl. rewrite Hf. simpl.
      rewrite bool_decide_false by congruence. done.
  - simpl. rewrite Hf. simpl. rewrite bool_decide_false by congruence. done.
Qed.

(** C9 (witness): [abc.png] after [abc_sbs.png]. *)
Lemma scan_icon_taken_base_witness :
  scan_icon ({["abc" := ("abc_sbs.png", (0%N, 1%N))]}, []) ("abc.png", EReg (0%N, 2%N)) =
    ({["abc" := ("abc_sbs.png", (0%N, 1%N))]}, []).
Proof.
  apply (scan_icon_taken_base _ _ "abc.png" (EReg (0%N, 2%N)) "abc" (0%N, 2%N)).
  - reflexivity.
  - reflexivity.
  - intros pre suf H. vm_compute in H. discriminate H.
  - eexists. vm_compute. reflexivity.
Defined.

(** C9 (counterexample): with [abc_sbs.png] listed before [abc.png], key
    [abc] stays with [abc_sbs.png] and the log is empty. *)
Lemma scan_taken_base_not_logged :
  (makePiconFileList env_sbs).1 !! "abc" = Some ("abc_sbs.png", (0%N, 1%N)) /\
  (makePiconFileList env_sbs).2 = [].
Proof. split; vm_compute; reflexivity. Qed.

(** C8: once a target name is claimed by icon key [k] (its link made or
    confirmed), a later record with the same key leaves the state as it
    is, a record with another key only logs a conflict, and the name stays
    claimed by [k] to the end of [makeLinks]. *)
Theorem claimed_target_kept E o pf sr picon name s k lines srpf :
  piconLinks s !! name = Some k ->
  make_link E o pf sr picon name s =
    (if String.eqb picon k then s else add_log (MConflict sr k picon) s) /\
  piconLinks (make_links_lines E o pf lines srpf s).1 !! name = Some k.
Proof.
  intros H. split.
  - unfold make_link. rewrite H.
    destruct (String.eqb_spec picon k) as [->|Hne].
    + by rewrite bool_decide_true.
    + rewrite bool_decide_false; [done|]. congruence.
  - eapply lookup_weaken; [exact H|]. apply lines_pl.
Qed.

(** C8 (witness): a target claimed by [k1], then requested for [k2]. *)
Lemma claimed_target_kept_witness :
  make_link env_none opts_full ∅ "r" "k2" "t.png" (mkLM ∅ ∅ ∅ ∅ {["t.png" := "k1"]} 0 []) =
    add_log (MConflict "r" "k1" "k2") (mkLM ∅ ∅ ∅ ∅ {["t.png" := "k1"]} 0 []) /\
  piconLinks (make_links_lines env_none opts_full ∅ [] None
                (mkLM ∅ ∅ ∅ ∅ {["t.png" := "k1"]} 0 [])).1 !! "t.png" = Some "k1".
Proof.
  apply (claimed_target_kept env_none opts_full ∅ "r" "k2" "t.png"
           (mkLM ∅ ∅ ∅ ∅ {["t.png" := "k1"]} 0 []) "k1" [] None).
  vm_compute. reflexivity.
Defined.

(** C8 (counterexample): the first record's icon [k1] is missing, so the
    second record links the same target to [k2] and no conflict is
    logged. *)
Lemma unlinked_target_relinked :
  exists s, run env_k2 opts_full two_keys ∅ = RDone s /\
    piconLinks s !! two_keys_target = Some "k2" /\
    lm_out s !! two_keys_target = Some (ESym (TFile (0%N, 2%N))) /\
    lm_log s = [MRemoving 0; MNoPicon "k1" "1:0:19:1:2:3:0:0:0:0"; MLinksMade 1; MRemoving 0].
Proof. eexists. split; [vm_compute; reflexivity|]. vm_compute. repeat split. Qed.






(** C4: in a writable output directory, a [.png] name that is a link of
    the configured kind before a run that ends normally, and that no
    record claims, is gone at its end, whether or not it was recorded as
    an override on the way. *)
Theorem unclaimed_links_removed E o lines out s n :
  run E o lines out = RDone s -> out_ro E = false ->
  is_png n = true -> refType E out n = kind o ->
  piconLinks s !! n = None -> lm_out s !! n = None.
Proof.
  intros Hr Hro Hp Hk Hn. destruct (run_done _ _ _ _ _ Hr) as (s0 & s1 & Hc & Hm & _ & ->).
  destruct (cwl_spec _ _ _ _ _ Hc) as (P0 & _ & _ & O0 & _ & _ & T0).
  assert (Inv : claimed_ok o (makePiconFileList E).1 s1 /\ tracked s1 n).
  { replace s1 with (make_links_lines E o (makePiconFileList E).1 lines None s0).1
      by (by rewrite Hm).
    apply (lines_pres E o _ (fun s => claimed_ok o (makePiconFileList E).1 s /\ tracked s n)).
    - intros sr picon name s' [H1 H2]. split; [by apply claimed_ok_step|].
      apply tracked_step; [done|apply (proj1 H1)|done].
    - intros l s' H. split; exact H.
    - split; [split; [done|]|].
      + intros n' k. by rewrite P0, lookup_empty.
      + destruct (T0 Hro n Hp Hk); [right; left|right; right]; done. }
  destruct Inv as [[Hok _] Ht].
  destruct (clean_spec E (add_log (MLinksMade (linksMade s1)) s1))
    as (_ & _ & C3 & _ & _ & C6 & C7 & C8).
  cbv zeta in *. rewrite C3 in Hn. simpl in Hn.
  destruct Ht as [[k Hk']|[[I HI]|Hg]]; [congruence| |].
  - destruct (C8 n) as [|(_ & [Hr'|(i & Hi)])]; [simpl; eauto|done|congruence|].
    exfalso. eapply link_entry_not_dir; [apply (Hok n I HI)|exact Hi].
  - destruct (C7 n) as [-> | ->]; [exact Hg|done].
Qed.

(** C4 (witness): a stale symbolic link and an empty database. *)
Lemma unclaimed_links_removed_witness :
  exists s, run env_k1 opts_full [] stale_out = RDone s /\ lm_out s !! "old.png" = None.
Proof.
  eexists. split; [vm_compute; reflexivity|].
  apply (unclaimed_links_removed env_k1 opts_full [] stale_out _ "old.png");
    vm_compute; reflexivity.
Defined.

(** C4 (counterexample): [A.png] and [B.png] are two names of one inode,
    hard links of the configured kind.  The first record replaces [A.png],
    which leaves [B.png] a plain file; the second record then records
    [B.png] as an override, and the final cleanup removes it. *)
Lemma override_removed :
  exists s0 s1 s,
    cleanWrongLinks env_k1 opts_names_hard [] shared_out = Some s0 /\
    make_links_lines env_k1 opts_names_hard (makePiconFileList env_k1).1
      ["x:0:0 A k1"] None s0 = (s1, false) /\
    lm_out s1 !! "B.png" = Some (EReg (0%N, 9%N)) /\
    refType env_k1 (lm_out s1) "B.png" = IS_FILE /\
    run env_k1 opts_names_hard shared_lines shared_out = RDone s /\
    overrides s = {["B.png"]} /\ lm_out s !! "B.png" = None.
Proof.
  do 3 eexists. split; [vm_compute; reflexivity|]. split; [vm_compute; reflexivity|].
  split; [vm_compute; reflexivity|]. split; [vm_compute; reflexivity|].
  split; [vm_compute; reflexivity|]. split; vm_compute; reflexivity.
Qed.

(** C2: a name that is a plain file (a regular file with one link) when
    a sequence of runs starts keeps its entry and stays a plain file
    through every run, however each run ends, provided each inventory
    icon has a name outside the output directory. *)
Theorem plain_file_never_replaced E out N :
  icons_stored E -> refType E out N = IS_FILE ->
  forall rs, run_seq E rs out !! N = out !! N /\ refType E (run_seq E rs out) N = IS_FILE.
Proof.
  intros Hic Hf.
  assert (HX : exists X, out !! N = Some (EReg X) /\ outside E X = 0 /\ cnt_out out X = 1).
  { unfold refType in Hf. destruct (out !! N) as [[X| |]|] eqn:HN; try discriminate.
    destruct (Nat.ltb_spec 1 (nlink E out X)); [discriminate|].
    pose proof (cnt_out_pos _ _ _ HN). exists X. unfold nlink, outside in *.
    split; [done|]. lia. }
  destruct HX as (X & HN & HX & Hc). rewrite HN.
  assert (Hseq : forall rs out, out !! N = Some (EReg X) -> cnt_out out X = 1 ->
    run_seq E rs out !! N = Some (EReg X) /\ cnt_out (run_seq E rs out) X = 1).
  { induction rs as [|[o lines] rs IH]; intros out' H1 H2; simpl; [done|].
    destruct (file_kept_run E o lines out' N X Hic HX H1 H2) as [K1 K2]. by apply IH. }
  intros rs. destruct (Hseq rs out HN Hc) as [H1 H2]. split; [done|].
  rewrite (refType_reg _ _ _ _ H1). replace (nlink E (run_seq E rs out) X) with 1; [done|].
  unfold nlink, outside in *. lia.
Qed.

(** C2 (witness): two runs over a plain file that a record targets. *)
Lemma plain_file_never_replaced_witness :
  run_seq env_k1 own_runs own_out !! "own.png" = own_out !! "own.png" /\
  refType env_k1 (run_seq env_k1 own_runs own_out) "own.png" = IS_FILE.
Proof.
  apply (plain_file_never_replaced env_k1 own_out "own.png").
  - exact env_k1_stored.
  - vm_compute. reflexivity.
Defined.

(** C2 (counterexample): [B.png] is a plain file (one link) when the
    second record first reaches it, is recorded as an override, and is
    removed at the end of the run. *)
Lemma file_overridden_then_removed :
  exists s0 s1 s,
    cleanWrongLinks env_k1 opts_names_hard [] shared_out = Some s0 /\
    make_links_lines env_k1 opts_names_hard (makePiconFileList env_k1).1
      ["x:0:0 A k1"] None s0 = (s1, false) /\
    refType env_k1 (lm_out s1) "B.png" = IS_FILE /\ piconLinks s1 !! "B.png" = None /\
    run env_k1 opts_names_hard shared_lines shared_out = RDone s /\
    In (MOverridden "k1" "B.png") (lm_log s) /\ lm_out s !! "B.png" = None.
Proof.
  do 3 eexists. split; [vm_compute; reflexivity|]. split; [vm_compute; reflexivity|].
  split; [vm_compute; reflexivity|]. split; [vm_compute; reflexivity|].
  split; [vm_compute; reflexivity|]. split; [|vm_compute; reflexivity].
  vm_compute. right. left. reflexivity.
Qed.




End Claims.

(** * Further properties of the script *)

Module Extras.

(** ** [sorted] on strings *)

Lemma str_ltb_irrefl a : str_ltb a a = false.
Proof.
  induction a as [|x a IH]; simpl; [done|].
  rewrite Nat.ltb_irrefl, Nat.eqb_refl. exact IH.
Qed.

Lemma ascii_nat_eq x y : nat_of_ascii x = nat_of_ascii y -> x = y.
Proof.
  intros H. rewrite <- (ascii_nat_embedding x), <- (ascii_nat_embedding y). by rewrite H.
Qed.

Lemma str_ltb_trans a b c : str_ltb a b = true -> str_ltb b c = true -> str_ltb a c = true.
Proof.
  revert b c. induction a as [|x a IH]; intros [|y b] [|z c]; simpl; try done.
  destruct (Nat.ltb_spec (nat_of_ascii x) (nat_of_ascii y));
  destruct (Nat.eqb_spec (nat_of_ascii x) (nat_of_ascii y));
  destruct (Nat.ltb_spec (nat_of_ascii y) (nat_of_ascii z));
  destruct (Nat.eqb_spec (nat_of_ascii y) (nat_of_ascii z));
  destruct (Nat.ltb_spec (nat_of_ascii x) (nat_of_ascii z));
  destruct (Nat.eqb_spec (nat_of_ascii x) (nat_of_ascii z)); try lia; try done.
  apply IH.
Qed.

Lemma str_ltb_total a b : a <> b -> str_ltb a b = true \/ str_ltb b a = true.
Proof.
  revert b. induction a as [|x a IH]; intros [|y b] Hne; simpl; [done|auto|auto|].
  destruct (Nat.ltb_spec (nat_of_ascii x) (nat_of_ascii y)); [auto|].
  destruct (Nat.ltb_spec (nat_of_ascii y) (nat_of_ascii x)); [auto|].
  assert (Hxy : x = y) by (apply ascii_nat_eq; lia). subst y.
  rewrite Nat.eqb_refl. apply IH. congruence.
Qed.

Lemma str_leb_trans a b c : str_leb a b -> str_leb b c -> str_leb a c.
Proof.
  unfold str_leb. intros H1 H2.
  destruct (str_ltb c a) eqn:H3; [|done].
  destruct (decide (a = b)) as [->|Hab]; [congruence|].
  destruct (str_ltb_total a b Hab) as [H4|H4]; [|congruence].
  rewrite (str_ltb_trans c a b H3 H4) in H2. done.
Qed.

Lemma insert_sorted_perm x l : insert_sorted x l ≡ₚ x :: l.
Proof.
  induction l as [|y l IH]; simpl; [done|].
  destruct (str_ltb y x); [|done]. rewrite IH. apply perm_swap.
Qed.

Lemma sorted_strs_perm l : sorted_strs l ≡ₚ l.
Proof.
  induction l as [|x l IH]; simpl; [done|]. rewrite insert_sorted_perm. by rewrite IH.
Qed.

Lemma insert_sorted_sorted x l :
  StronglySorted str_leb l -> StronglySorted str_leb (insert_sorted x l).
Proof.
  induction l as [|y l IH]; intros Hs; simpl; [repeat constructor|].
  inversion Hs as [|? ? Hs' Hall]; subst.
  destruct (str_ltb y x) eqn:Hyx.
  - constructor; [by apply IH|]. apply Forall_forall. intros z Hz.
    rewrite insert_sorted_perm, elem_of_cons in Hz. destruct Hz as [->|Hz].
    + unfold str_leb. destruct (str_ltb x y) eqn:Hxy; [|done].
      pose proof (str_ltb_trans _ _ _ Hxy Hyx) as Hc. by rewrite str_ltb_irrefl in Hc.
    + by apply (proj1 (Forall_forall _ _) Hall).
  - constructor; [done|]. constructor; [done|].
    apply Forall_forall. intros z Hz. apply (str_leb_trans _ y); [done|].
    by apply (proj1 (Forall_forall _ _) Hall).
Qed.

Lemma sorted_strs_sorted l : StronglySorted str_leb (sorted_strs l).
Proof. induction l as [|x l IH]; simpl; [constructor|]. by apply insert_sorted_sorted. Qed.

(** Without repetitions the order is strict. *)
Lemma sorted_strs_strict l :
  NoDup l -> StronglySorted (fun a b => str_ltb a b = true) (sorted_strs l).
Proof.
  intros Hnd. assert (Hnd' : NoDup (sorted_strs l)) by by rewrite sorted_strs_perm.
  pose proof (sorted_strs_sorted l) as Hs. revert Hnd' Hs.
  generalize (sorted_strs l). clear Hnd. intros l'. induction l' as [|a l' IH]; intros Hnd Hs; [constructor|].
  inversion Hs as [|? ? Hs' Hall]; subst. apply NoDup_cons in Hnd as [Hna Hnd].
  constructor; [by apply IH|]. apply Forall_forall. intros b Hb.
  assert (Hab : a <> b) by (intros ->; by apply Hna).
  destruct (str_ltb_total a b Hab) as [|H]; [done|].
  pose proof (proj1 (Forall_forall _ _) Hall b Hb) as Hle. unfold str_leb in Hle. congruence.
Qed.

(** ** [checkUnused] *)

Lemma link_target_lp E o name pn I lex s :
  linkedPiconNames (link_target E o name pn I lex s).1 = linkedPiconNames s /\
  piconLinks (link_target E o name pn I lex s).1 = piconLinks s.
Proof.
  unfold link_target. destruct (origPiconLinks s !! name); simpl;
    repeat (case_match; simpl); auto.
Qed.

(** A target adds its icon file to [linkedPiconNames] exactly when it is
    claimed. *)
Lemma make_link_linked E o pf sr picon name s :
  (linkedPiconNames (make_link E o pf sr picon name s) = linkedPiconNames s /\
   piconLinks (make_link E o pf sr picon name s) = piconLinks s) \/
  (exists pn I, pf !! picon = Some (pn, I) /\ piconLinks s !! name = None /\
   piconLinks (make_link E o pf sr picon name s) = <[name := picon]> (piconLinks s) /\
   linkedPiconNames (make_link E o pf sr picon name s) = {[pn]} ∪ linkedPiconNames s).
Proof.
  unfold make_link. destruct (bool_decide _); [by left|].
  destruct (piconLinks s !! name) as [k|] eqn:Hpl; [by left|].
  destruct (if path_exists (lm_out s) name then isOverride E s name else (false, overrides s))
    as [isov ov].
  destruct isov; [destruct (bool_decide (name ∈ overrides s)); by left|].
  destruct (pf !! picon) as [[pn I]|] eqn:Hpf.
  2:{ destruct (existsb _ _); by left. }
  match goal with |- context [link_target ?a ?b ?c ?d ?e ?f ?g] =>
    pose proof (link_target_lp a b c d e f g) as [HL1 HL2];
    destruct (link_target a b c d e f g) as [s2 lk] end.
  simpl in HL1, HL2. destruct lk.
  - right. exists pn, I. unfold record_link. simpl. rewrite HL1, HL2. done.
  - left. destruct (existsb _ _); simpl; by rewrite HL1, HL2.
Qed.

Lemma lines_linked E o pf lines srpf s :
  (forall pn, pn ∈ linkedPiconNames s <->
     exists n k I, piconLinks s !! n = Some k /\ pf !! k = Some (pn, I)) ->
  forall pn, pn ∈ linkedPiconNames (make_links_lines E o pf lines srpf s).1 <->
     exists n k I, piconLinks (make_links_lines E o pf lines srpf s).1 !! n = Some k /\
                   pf !! k = Some (pn, I).
Proof.
  apply (lines_pres E o pf (fun s => forall pn, pn ∈ linkedPiconNames s <->
     exists n k I, piconLinks s !! n = Some k /\ pf !! k = Some (pn, I))).
  - intros sr picon name s0 H pn.
    destruct (make_link_linked E o pf sr picon name s0) as [[-> ->]|(pn0 & I0 & Hpf & Hpl & -> & ->)];
      [apply H|].
    rewrite elem_of_union, elem_of_singleton, H. split.
    + intros [->|(n & k & I & Hn & Hk)].
      * exists name, picon, I0. by rewrite lookup_insert_eq.
      * exists n, k, I. rewrite lookup_insert_ne; [done|congruence].
    + intros (n & k & I & Hn & Hk). destruct (decide (n = name)) as [->|Hne].
      * rewrite lookup_insert_eq in Hn. injection Hn as <-. rewrite Hpf in Hk. left; congruence.
      * rewrite lookup_insert_ne in Hn by congruence. right. eauto.
  - intros l s0 H. split; intros pn; apply H.
Qed.

Lemma clean_linked E names s : linkedPiconNames (_clean E names s) = linkedPiconNames s.
Proof.
  unfold _clean. by destruct (clean_fold_spec E names (add_log (MRemoving (length names)) s))
    as (_ & _ & A3 & _).
Qed.

Lemma cwl_linked E o lg out s0 :
  cleanWrongLinks E o lg out = Some s0 -> linkedPiconNames s0 = ∅ /\ piconLinks s0 = ∅.
Proof.
  intros Hc. split; [|by destruct (cwl_spec E o lg out s0 Hc)].
  unfold cleanWrongLinks in Hc. destruct (scan_links E o out) as [[orig wrong]|]; [|done].
  injection Hc as <-. destruct (cleanAll o); unfold clean; simpl; by rewrite !clean_linked.
Qed.

Lemma elem_of_picon_names pf pn : pn ∈ picon_names pf <-> exists k I, pf !! k = Some (pn, I).
Proof.
  unfold picon_names. rewrite list_elem_of_fmap. split.
  - intros ([k [pn' I]] & -> & Hin). apply elem_of_map_to_list in Hin. eauto.
  - intros (k & I & Hk). exists (k, (pn, I)). split; [done|]. by apply elem_of_map_to_list.
Qed.

(** X1.  After [makeLinks] (from the state the constructor leaves), the
    unused-icon report lists, in strictly ascending order, exactly the
    inventory icon files that no claimed target links to. *)
Theorem checkUnused_exact E o lg out s0 pf lines srpf s1 raised :
  cleanWrongLinks E o lg out = Some s0 ->
  make_links_lines E o pf lines srpf s0 = (s1, raised) ->
  StronglySorted (fun a b => str_ltb a b = true) (checkUnused pf s1) /\
  forall pn, In pn (checkUnused pf s1) <->
    (exists k I, pf !! k = Some (pn, I)) /\
    ~ exists n k I, piconLinks s1 !! n = Some k /\ pf !! k = Some (pn, I).
Proof.
  intros Hc Hl. destruct (cwl_linked E o lg out s0 Hc) as [HL HP].
  pose proof (lines_linked E o pf lines srpf s0) as Hk. rewrite Hl in Hk. simpl in Hk.
  assert (Hk' : forall pn, pn ∈ linkedPiconNames s1 <->
     exists n k I, piconLinks s1 !! n = Some k /\ pf !! k = Some (pn, I)).
  { apply Hk. intros pn. rewrite HL, HP. split; [set_solver|].
    intros (n & k & I & Hn & _). by rewrite lookup_empty in Hn. }
  unfold checkUnused. split.
  - apply sorted_strs_strict, NoDup_elements.
  - intros pn. rewrite <- list_elem_of_In, sorted_strs_perm, elem_of_elements,
      elem_of_difference, elem_of_list_to_set, elem_of_picon_names, Hk'. done.
Qed.

Lemma checkUnused_exact_witness :
  cleanWrongLinks env_k1k2 opts_full (makePiconFileList env_k1k2).2 ∅ = Some cwl_k1k2 /\
  make_links_lines env_k1k2 opts_full (makePiconFileList env_k1k2).1 two_keys None cwl_k1k2 =
    (lines_k1k2.1, lines_k1k2.2) /\
  checkUnused (makePiconFileList env_k1k2).1 lines_k1k2.1 = ["k2.png"] /\
  StronglySorted (fun a b => str_ltb a b = true) (checkUnused (makePiconFileList env_k1k2).1 lines_k1k2.1) /\
  forall pn, In pn (checkUnused (makePiconFileList env_k1k2).1 lines_k1k2.1) <->
    (exists k I, (makePiconFileList env_k1k2).1 !! k = Some (pn, I)) /\
    ~ exists n k I, piconLinks lines_k1k2.1 !! n = Some k /\ (makePiconFileList env_k1k2).1 !! k = Some (pn, I).
Proof.
  assert (H1 : cleanWrongLinks env_k1k2 opts_full (makePiconFileList env_k1k2).2 ∅ = Some cwl_k1k2)
    by (vm_compute; reflexivity).
  assert (H2 : make_links_lines env_k1k2 opts_full (makePiconFileList env_k1k2).1 two_keys None cwl_k1k2 =
                 (lines_k1k2.1, lines_k1k2.2)) by (vm_compute; reflexivity).
  split; [exact H1|]. split; [exact H2|]. split; [vm_compute; reflexivity|].
  exact (checkUnused_exact _ _ _ _ _ _ _ _ _ _ H1 H2).
Defined.

(** ** [makeHtmlIndex] *)

Ltac divmod6 :=
  repeat match goal with
  | |- context [?t / 6] =>
      pose proof (Nat.div_mod t 6 ltac:(lia)); pose proof (Nat.mod_upper_bound t 6 ltac:(lia));
      generalize dependent (t / 6); generalize dependent (t mod 6); intros
  | H : context [?t / 6] |- _ =>
      pose proof (Nat.div_mod t 6 ltac:(lia)); pose proof (Nat.mod_upper_bound t 6 ltac:(lia));
      generalize dependent (t / 6); generalize dependent (t mod 6); intros
  | |- context [?t mod 6] =>
      pose proof (Nat.div_mod t 6 ltac:(lia)); pose proof (Nat.mod_upper_bound t 6 ltac:(lia));
      generalize dependent (t / 6); generalize dependent (t mod 6); intros
  | H : context [?t mod 6] |- _ =>
      pose proof (Nat.div_mod t 6 ltac:(lia)); pose proof (Nat.mod_upper_bound t 6 ltac:(lia));
      generalize dependent (t / 6); generalize dependent (t mod 6); intros
  end; lia.

(** The pieces that open a row, close one, and the cells. *)
Local Abbreviation row_open := (String.eqb (String.append "<tr>" nl)).
Local Abbreviation row_close := (fun p => String.eqb p "</tr>" || String.eqb p (String.append "  </tr>" nl)).
Local Abbreviation is_cell := (String.prefix "    <td>").

(** After [k] icons the loop is at [row = k / 6], [item = k mod 6]; the
    next icon writes these pieces. *)
Lemma index_step_k k acc x :
  index_step (k / 6, k mod 6, acc) x =
    ((k + 1) / 6, (k + 1) mod 6,
     (acc ++ ((if (k mod 6 =? 0)%nat
               then ["  "] ++ (if (k / 6 =? 0)%nat then [] else ["</tr>"]) ++ [String.append "<tr>" nl]
               else []) ++ [html_cell x]))%list).
Proof.
  unfold index_step. cbv beta iota zeta.
  destruct (Nat.leb_spec 6 (S (k mod 6))).
  - replace ((k + 1) / 6) with (S (k / 6)) by divmod6. replace ((k + 1) mod 6) with 0 by divmod6.
    destruct (k mod 6 =? 0)%nat; rewrite <- ?app_assoc; reflexivity.
  - replace ((k + 1) / 6) with (k / 6) by divmod6. replace ((k + 1) mod 6) with (S (k mod 6)) by divmod6.
    destruct (k mod 6 =? 0)%nat; rewrite <- ?app_assoc; reflexivity.
Qed.

Lemma index_piece_counts (b c : bool) x :
  length (List.filter row_open
    ((if b then ["  "] ++ (if c then [] else ["</tr>"]) ++ [String.append "<tr>" nl] else []) ++
     [html_cell x])%list) = (if b then 1 else 0) /\
  length (List.filter row_close
    ((if b then ["  "] ++ (if c then [] else ["</tr>"]) ++ [String.append "<tr>" nl] else []) ++
     [html_cell x])%list) = (if b && negb c then 1 else 0) /\
  List.filter is_cell
    ((if b then ["  "] ++ (if c then [] else ["</tr>"]) ++ [String.append "<tr>" nl] else []) ++
     [html_cell x])%list = [html_cell x].
Proof. destruct b, c; split_and!; reflexivity. Qed.

Lemma index_fold l k acc :
  exists extra,
    fold_left index_step l (k / 6, k mod 6, acc) =
      ((k + length l) / 6, (k + length l) mod 6, (acc ++ extra)%list) /\
    length (List.filter row_open extra) + (k + 5) / 6 = (k + length l + 5) / 6 /\
    length (List.filter row_close extra) + ((k + 5) / 6 - 1) = (k + length l + 5) / 6 - 1 /\
    List.filter is_cell extra = map html_cell l.
Proof.
  revert k acc. induction l as [|x l IH]; intros k acc.
  - exists []. rewrite Nat.add_0_r, app_nil_r. done.
  - cbn [fold_left]. rewrite index_step_k.
    destruct (IH (k + 1) (acc ++ ((if (k mod 6 =? 0)%nat
               then ["  "] ++ (if (k / 6 =? 0)%nat then [] else ["</tr>"]) ++ [String.append "<tr>" nl]
               else []) ++ [html_cell x]))%list) as (extra & Hf & Ho & Hc & Hl).
    eexists. rewrite Hf, <- app_assoc. change (length (x :: l)) with (S (length l)).
    assert (Hk : k + 1 + length l = k + S (length l)) by lia. rewrite Hk in *.
    split; [reflexivity|].
    destruct (index_piece_counts (k mod 6 =? 0)%nat (k / 6 =? 0)%nat x) as (E1 & E2 & E3).
    set (e := ((if (k mod 6 =? 0)%nat
               then ["  "] ++ (if (k / 6 =? 0)%nat then [] else ["</tr>"]) ++ [String.append "<tr>" nl]
               else []) ++ [html_cell x])%list) in *.
    rewrite !List.filter_app, !length_app, E1, E2, E3, Hl. split; [|split; [|reflexivity]].
    + destruct (Nat.eqb_spec (k mod 6) 0); divmod6.
    + destruct (Nat.eqb_spec (k mod 6) 0); destruct (Nat.eqb_spec (k / 6) 0); cbn [andb negb]; divmod6.
Qed.

Lemma picon_names_length pf : length (picon_names pf) = size pf.
Proof. unfold picon_names. by rewrite length_map, length_map_to_list. Qed.

Lemma makeHtmlIndex_eq title pf :
  exists extra,
    makeHtmlIndex title pf =
      ([String.append (htmlHead title) nl] ++ extra ++
       (if (size pf / 6 =? 0)%nat then [] else [String.append "  </tr>" nl]) ++
       [String.append htmlTail nl])%list /\
    length (List.filter row_open extra) = (size pf + 5) / 6 /\
    length (List.filter row_close extra) = (size pf + 5) / 6 - 1 /\
    List.filter is_cell extra = map html_cell (sorted_strs (picon_names pf)).
Proof.
  unfold makeHtmlIndex.
  change (0%nat, 0%nat, [String.append (htmlHead title) nl])
    with (0 / 6, 0 mod 6, [String.append (htmlHead title) nl]).
  destruct (index_fold (sorted_strs (picon_names pf)) 0 [String.append (htmlHead title) nl])
    as (extra & -> & Ho & Hc & Hl).
  rewrite (Permutation_length (sorted_strs_perm _)), picon_names_length in *.
  rewrite !Nat.add_0_l in *. change (5 / 6 - 1) with 0 in Hc. change (5 / 6) with 0 in Ho.
  exists extra. split; [by rewrite <- app_assoc|]. split; [lia|split; [lia|exact Hl]].
Qed.

Lemma index_ends_counts title (b : bool) :
  length (List.filter row_open [String.append (htmlHead title) nl]) = 0 /\
  length (List.filter row_close [String.append (htmlHead title) nl]) = 0 /\
  List.filter is_cell [String.append (htmlHead title) nl] = [] /\
  length (List.filter row_open
    ((if b then [] else [String.append "  </tr>" nl]) ++ [String.append htmlTail nl])%list) = 0 /\
  length (List.filter row_close
    ((if b then [] else [String.append "  </tr>" nl]) ++ [String.append htmlTail nl])%list) =
    (if b then 0 else 1) /\
  List.filter is_cell
    ((if b then [] else [String.append "  </tr>" nl]) ++ [String.append htmlTail nl])%list = [].
Proof. destruct b; split_and!; reflexivity. Qed.

(** X2.  Of the [size pf] icons, [makeHtmlIndex] opens [ceil(size pf / 6)]
    table rows; the rows it closes (the [</tr>] before each later row and
    the final [  </tr>]) are as many when there are no icons or at least
    six, and none when there are one to five: the only row is left open. *)
Theorem makeHtmlIndex_rows title pf :
  length (List.filter row_open (makeHtmlIndex title pf)) = (size pf + 5) / 6 /\
  length (List.filter row_close (makeHtmlIndex title pf)) =
    (if (size pf <? 6)%nat then 0 else (size pf + 5) / 6) /\
  (length (List.filter row_open (makeHtmlIndex title pf)) =
     length (List.filter row_close (makeHtmlIndex title pf)) <->
   size pf = 0 \/ 6 <= size pf).
Proof.
  destruct (makeHtmlIndex_eq title pf) as (extra & -> & Ho & Hc & _).
  destruct (index_ends_counts title (size pf / 6 =? 0)%nat) as (H1 & H2 & _ & H4 & H5 & _).
  set (hd := [String.append (htmlHead title) nl]) in *.
  set (cl := ((if (size pf / 6 =? 0)%nat then [] else [String.append "  </tr>" nl]) ++
              [String.append htmlTail nl])%list) in *.
  rewrite !List.filter_app, !length_app, H1, H2, H4, H5, Ho, Hc.
  destruct (Nat.eqb_spec (size pf / 6) 0); destruct (Nat.ltb_spec (size pf) 6);
    (split; [|split]); divmod6.
Qed.

(** X3.  The cells of the index are one per inventory entry, in ascending
    order of icon file name; the index starts with the head and ends
    with the tail. *)
Theorem makeHtmlIndex_cells title pf :
  exists names,
    List.filter is_cell (makeHtmlIndex title pf) = map html_cell names /\
    Permutation names (picon_names pf) /\
    StronglySorted str_leb names /\
    head (makeHtmlIndex title pf) = Some (String.append (htmlHead title) nl) /\
    last (makeHtmlIndex title pf) = Some (String.append htmlTail nl).
Proof.
  destruct (makeHtmlIndex_eq title pf) as (extra & -> & _ & _ & Hl).
  destruct (index_ends_counts title (size pf / 6 =? 0)%nat) as (_ & _ & H3 & _ & _ & H6).
  exists (sorted_strs (picon_names pf)).
  split; [|split; [apply sorted_strs_perm|split; [apply sorted_strs_sorted|split]]].
  - set (hd := [String.append (htmlHead title) nl]) in *.
    set (cl := ((if (size pf / 6 =? 0)%nat then [] else [String.append "  </tr>" nl]) ++
                [String.append htmlTail nl])%list) in *.
    rewrite !List.filter_app, H3, H6, Hl. by rewrite app_nil_r.
  - done.
  - rewrite !app_assoc. apply last_snoc.
Qed.

(** ** A read-only output directory *)

Section ReadOnly.

Context (E : env) (Hro : out_ro E = true).

Lemma ro_link_target o name pn I lex s : lm_out (link_target E o name pn I lex s).1 = lm_out s.
Proof.
  unfold link_target.
  destruct (match origPiconLinks s !! name with
            | Some r => (bool_decide (r = I), set_orig (delete name (origPiconLinks s)) s)
            | None => (false, s) end) as [linked s'] eqn:Hm.
  assert (Hs : lm_out s' = lm_out s)
    by (destruct (origPiconLinks s !! name); injection Hm as _ <-; reflexivity).
  destruct linked; [done|].
  unfold os_remove, os_make, os_link, os_symlink. rewrite Hro.
  destruct lex; [done|]. destruct (useHardLinks o); simpl; done.
Qed.

Lemma ro_make_link o pf sr picon name s : lm_out (make_link E o pf sr picon name s) = lm_out s.
Proof.
  unfold make_link. destruct (bool_decide _); [done|].
  destruct (piconLinks s !! name); [done|].
  destruct (if path_exists (lm_out s) name then isOverride E s name else (false, overrides s))
    as [isov ov].
  destruct isov; [destruct (bool_decide (name ∈ overrides s)); done|].
  destruct (pf !! picon) as [[pn I]|].
  2:{ destruct (existsb _ _); done. }
  match goal with |- context [link_target ?a ?b ?c ?d ?e ?f ?g] =>
    pose proof (ro_link_target b c d e f g) as HL;
    destruct (link_target a b c d e f g) as [s2 lk] end.
  simpl in HL. destruct lk; [done|]. destruct (existsb _ _); done.
Qed.

Lemma ro_lines o pf lines srpf s : lm_out (make_links_lines E o pf lines srpf s).1 = lm_out s.
Proof.
  apply (lines_pres E o pf (fun s' => lm_out s' = lm_out s)); [|done|reflexivity].
  intros sr picon name s0 H. by rewrite ro_make_link.
Qed.

Lemma ro_clean_fold names s : lm_out (fold_left (remove_one E) names s) = lm_out s.
Proof.
  revert s. induction names as [|n names IH]; intros s; simpl; [done|].
  rewrite IH. unfold remove_one, os_remove. by rewrite Hro.
Qed.

Lemma ro_clean s : lm_out (clean E s) = lm_out s.
Proof. unfold clean, _clean. simpl. by rewrite ro_clean_fold. Qed.

Lemma ro_cwl o lg out s0 : cleanWrongLinks E o lg out = Some s0 -> lm_out s0 = out.
Proof.
  unfold cleanWrongLinks. destruct (scan_links E o out) as [[orig wrong]|]; [|done].
  intros [= <-]. destruct (cleanAll o); [rewrite ro_clean|]; unfold _clean; by rewrite ro_clean_fold.
Qed.

Lemma ro_run_lines o lines out pf lg s0 s1 raised :
  makePiconFileList E = (pf, lg) -> cleanWrongLinks E o lg out = Some s0 ->
  make_links_lines E o pf lines None s0 = (s1, raised) -> lm_out s1 = out.
Proof.
  intros _ Hc Hl. rewrite <- (ro_cwl o lg out s0 Hc).
  pose proof (ro_lines o pf lines None s0) as HL. by rewrite Hl in HL.
Qed.

Lemma ro_run o lines out : lm_out (result_state (run E o lines out)) = out.
Proof.
  unfold run. destruct (makePiconFileList E) as [pf lg] eqn:Hpf.
  destruct (cleanWrongLinks E o lg out) as [s0|] eqn:Hc; [|done].
  unfold makeLinks. destruct (make_links_lines E o pf lines None s0) as [s1 raised] eqn:Hl.
  pose proof (ro_run_lines o lines out pf lg s0 s1 raised Hpf Hc Hl) as Ho.
  destruct raised; [done|]. destruct (index_fails _ _); [done|].
  change (lm_out (clean E (add_log (MLinksMade (linksMade s1)) s1)) = out).
  rewrite ro_clean. exact Ho.
Qed.

(** X4.  When the output directory is read-only, any sequence of runs
    leaves its entries as they were. *)
Theorem run_seq_read_only rs out : run_seq E rs out = out.
Proof.
  revert out. induction rs as [|[o lines] rs IH]; intros out; simpl; [done|].
  by rewrite ro_run.
Qed.

(** X5.  When the output directory is read-only and has no [index.html],
    no run completes: [makeHtmlIndex] cannot create the file. *)
Theorem run_read_only_no_index o lines out s :
  out !! "index.html" = None -> run E o lines out <> RDone s.
Proof.
  intros Hi. unfold run. destruct (makePiconFileList E) as [pf lg] eqn:Hpf.
  destruct (cleanWrongLinks E o lg out) as [s0|] eqn:Hc; [|done].
  unfold makeLinks. destruct (make_links_lines E o pf lines None s0) as [s1 raised] eqn:Hl.
  pose proof (ro_run_lines o lines out pf lg s0 s1 raised Hpf Hc Hl) as Ho.
  destruct raised; [done|].
  unfold index_fails. cbn [lm_out add_log]. rewrite Ho, Hi, Hro. done.
Qed.

End ReadOnly.

Lemma run_seq_read_only_witness :
  out_ro env_ro = true /\ run_seq env_ro own_runs stale_out = stale_out.
Proof.
  assert (H : out_ro env_ro = true) by reflexivity.
  split; [exact H|]. exact (run_seq_read_only env_ro H own_runs stale_out).
Defined.

Lemma run_read_only_no_index_witness :
  out_ro env_ro = true /\ stale_out !! "index.html" = None /\
  forall s, run env_ro opts_full two_keys stale_out <> RDone s.
Proof.
  assert (H : out_ro env_ro = true) by reflexivity.
  assert (Hi : stale_out !! "index.html" = None) by (vm_compute; reflexivity).
  split; [exact H|]. split; [exact Hi|].
  intros s. exact (run_read_only_no_index env_ro H opts_full two_keys stale_out s Hi).
Defined.

(** ** Names a run may change *)

Lemma rsplit_last_app c s pre suf : rsplit_last c s = Some (pre, suf) -> s = (pre ++ suf)%string.
Proof.
  revert pre suf. induction s as [|a s IH]; intros pre suf; simpl; [done|].
  destruct (rsplit_last c s) as [[p q]|] eqn:Hr.
  - intros [= <- <-]. simpl. by rewrite (IH p q eq_refl).
  - destruct (Ascii.eqb a c); [intros [= <- <-]; done|done].
Qed.

Lemma is_png_suffix n : is_png n = true -> exists b, n = (b ++ ".png")%string.
Proof.
  unfold is_png, splitext. destruct (rsplit_last "."%char n) as [[pre ext]|] eqn:Hr; [|done].
  destruct (all_dots pre); simpl; [done|].
  intros He. apply String.eqb_eq in He. subst ext. exists pre. by apply rsplit_last_app in Hr.
Qed.

Lemma lines_frame_png E o pf lines srpf s n :
  ~ png_name n ->
  lm_out (make_links_lines E o pf lines srpf s).1 !! n = lm_out s !! n /\
  origPiconLinks (make_links_lines E o pf lines srpf s).1 !! n = origPiconLinks s !! n.
Proof.
  intros Hn. revert srpf s. induction lines as [|line lines IH]; intros srpf s; simpl; [done|].
  destruct (parse_line line) as [|l|l|sr sn pk].
  - apply IH.
  - rewrite !(proj1 (IH _ _)), !(proj2 (IH _ _)). done.
  - rewrite !(proj1 (IH _ _)), !(proj2 (IH _ _)). done.
  - destruct (expand o (ref_parts sr) sn srpf) as [[srs srpf']|]; [|done].
    rewrite !(proj1 (IH _ _)), !(proj2 (IH _ _)).
    revert s. induction srs as [|srp srs IHs]; intros s; [done|].
    rewrite record_cons, !(proj1 (IHs _)), !(proj2 (IHs _)).
    destruct (make_link_frame E o pf sr pk (target_name srp) s n) as (H1 & H2 & _).
    { intros ->. apply Hn. by exists (join "_" srp). }
    done.
Qed.

Lemma png_name_cons a n : String a n <> ".png" -> png_name (String a n) <-> png_name n.
Proof.
  intros Hne. split.
  - intros ([|c b] & H); [done|]. injection H as _ ->. by exists b.
  - intros (b & ->). by exists (String a b).
Qed.

Lemma png_name_dec n : {png_name n} + {~ png_name n}.
Proof.
  induction n as [|a n IH].
  - right. intros ([|c b] & H); discriminate.
  - destruct (string_dec (String a n) ".png") as [->|Hne]; [left; by exists ""|].
    destruct IH as [IH|IH]; [left|right]; by rewrite png_name_cons.
Defined.

(** X6.  Apart from [index.html], which [makeHtmlIndex] writes, a run
    changes no name of the output directory that does not end in [.png]. *)
Theorem run_changes_png_only E o lines out n :
  lm_out (result_state (run E o lines out)) !! n = out !! n \/ png_name n \/ n = "index.html".
Proof.
  destruct (png_name_dec n) as [|Hn]; [by right; left|left].
  assert (Hp : is_png n = false)
    by (destruct (is_png n) eqn:Hp; [exfalso; apply Hn, is_png_suffix, Hp|done]).
  unfold run. destruct (makePiconFileList E) as [pf lg].
  destruct (cleanWrongLinks E o lg out) as [s0|] eqn:Hc; [|done].
  destruct (cwl_spec E o lg out s0 Hc) as (_ & _ & _ & _ & H5 & H6 & _).
  assert (Ho0 : origPiconLinks s0 !! n = None) by (rewrite H5, Hp; by destruct (cleanAll o)).
  assert (Hout0 : lm_out s0 !! n = out !! n)
    by (destruct (H6 n) as [|(Hq & _)]; [done|congruence]).
  unfold makeLinks. destruct (make_links_lines E o pf lines None s0) as [s1 raised] eqn:Hl.
  destruct (lines_frame_png E o pf lines None s0 n Hn) as [F1 F2]. rewrite Hl in F1, F2.
  simpl in F1, F2.
  destruct raised; [simpl; congruence|].
  destruct (index_fails _ _); [simpl; congruence|].
  destruct (clean_spec E (add_log (MLinksMade (linksMade s1)) s1)) as (_ & _ & _ & _ & _ & C6 & _).
  simpl result_state. rewrite C6 by (simpl; congruence). simpl. congruence.
Qed.

(** ** A dangling link in the output directory *)

Lemma scan_fold_dangling E o out l acc n :
  out !! n = Some (ESym TDangling) -> is_png n = true -> In (n, ESym TDangling) l ->
  fold_left (scan_link E o out) l acc = None.
Proof.
  intros Ho Hp. revert acc. induction l as [|[m e] l IH]; intros acc Hin; [done|].
  simpl. destruct Hin as [Heq|Hin]; [|by apply IH].
  injection Heq as -> ->. rewrite <- (scan_link_none E o out l). f_equal.
  destruct acc as [[orig wrong]|]; [|done]. unfold scan_link. simpl.
  rewrite Hp. unfold refType, getLinkRef. rewrite Ho. done.
Qed.

(** X7.  A [.png] name of the output directory that is a dangling symbolic
    link makes [_cleanWrongLinks] take its [exit(1)] handler: [stat] raises
    in [getLinkRef] during the scan, before [_clean] removes anything,
    whatever the options (also with [-c]) and the log so far. *)
Theorem cleanWrongLinks_dangling_exit E o lg out n :
  out !! n = Some (ESym TDangling) -> is_png n = true ->
  cleanWrongLinks E o lg out = None.
Proof.
  intros Ho Hp. unfold cleanWrongLinks, scan_links.
  rewrite (scan_fold_dangling E o out (map_to_list out) _ n Ho Hp); [done|].
  apply list_elem_of_In. by apply elem_of_map_to_list.
Qed.

Lemma cleanWrongLinks_dangling_exit_witness :
  dangling_out !! "d.png" = Some (ESym TDangling) /\
  is_png "d.png" = true /\
  cleanWrongLinks env_k1 opts_full_c (snd (makePiconFileList env_k1)) dangling_out = None.
Proof.
  assert (Ho : dangling_out !! "d.png" =
                 Some (ESym TDangling)) by (vm_compute; reflexivity).
  assert (Hp : is_png "d.png" = true) by reflexivity.
  split; [exact Ho|]. split; [exact Hp|].
  exact (cleanWrongLinks_dangling_exit env_k1 opts_full_c _ _ _ Ho Hp).
Defined.

(** ** The icon inventory *)

Lemma str_app_cons x (a b : string) : (String x a ++ b)%string = String x (a ++ b).
Proof. reflexivity. Qed.

Lemma str_app_assoc (a b c : string) : ((a ++ b) ++ c)%string = (a ++ (b ++ c))%string.
Proof. induction a as [|x a IH]; [done|]. by rewrite !str_app_cons, IH. Qed.

Lemma str_app_nil_r (a : string) : (a ++ "")%string = a.
Proof. induction a as [|x a IH]; [done|]. by rewrite str_app_cons, IH. Qed.

Lemma rsplit_last_app_r c s t pre suf :
  rsplit_last c t = Some (pre, suf) -> rsplit_last c (s ++ t) = Some ((s ++ pre)%string, suf).
Proof. intros Ht. induction s as [|x s IH]; [done|]. rewrite !str_app_cons. simpl. by rewrite IH. Qed.

Lemma all_dots_app s t : all_dots (s ++ t) = all_dots s && all_dots t.
Proof. induction s as [|x s IH]; [done|]. rewrite str_app_cons. simpl. by rewrite IH, andb_assoc. Qed.

Lemma src_split src : In src PICON_SRCS ->
  rsplit_last "_"%char src = Some ("", src) /\ all_dots src = false /\
  rsplit_last "."%char src = None.
Proof. intros Hs. repeat (destruct Hs as [<-|Hs]; [done|]). done. Qed.

Lemma splitext_png_inv name bn : splitext name = (bn, ".png") -> name = (bn ++ ".png")%string.
Proof.
  unfold splitext. destruct (rsplit_last "."%char name) as [[pre ext]|] eqn:Hr; [|done].
  destruct (all_dots pre); [done|]. intros [= -> ->]. exact (rsplit_last_app _ _ _ _ Hr).
Qed.

(** One step of the scan: an entry it changes comes from this file, under
    its base name (when the key was free) or under the base name less a
    source suffix. *)
Lemma scan_icon_lookup files lg name e k v :
  (scan_icon (files, lg) (name, e)).1 !! k = Some v ->
  files !! k = Some v \/
  (k <> "" /\ exists I, v = (name, I) /\ file_ident e = Some I /\
    ((name = (k ++ ".png")%string /\ files !! k = None) \/
     (exists src, In src PICON_SRCS /\ name = (k ++ src ++ ".png")%string))).
Proof.
  unfold scan_icon. destruct (splitext name) as [bn ext] eqn:Hs.
  destruct (String.eqb_spec ext ".png") as [->|]; cbn [negb]; [|auto].
  apply splitext_png_inv in Hs.
  destruct (file_ident e) as [ref|] eqn:Hf; [|auto].
  destruct (rsplit_last "_"%char bn) as [[pre suf]|] eqn:Hr.
  - destruct (negb (String.eqb pre "") && existsb (String.eqb suf) PICON_SRCS) eqn:Hc.
    + apply andb_true_iff in Hc as [Hpre Hsrc]. apply negb_true_iff in Hpre.
      rewrite Hpre. cbn [fst]. destruct (String.eqb_spec pre k) as [->|Hne].
      * rewrite lookup_insert_eq. intros [= <-]. right.
        split; [intros ->; done|]. exists ref. split; [done|]. split; [done|]. right.
        apply existsb_exists in Hsrc as (src & Hin & Heq). apply String.eqb_eq in Heq. subst src.
        exists suf. split; [done|]. rewrite Hs, (rsplit_last_app _ _ _ _ Hr). apply str_app_assoc.
      * rewrite lookup_insert_ne by done. auto.
    + destruct (bool_decide (files !! bn = None)) eqn:Hb; cbn [fst]; [|auto].
      apply bool_decide_eq_true in Hb.
      destruct (String.eqb_spec bn "") as [->|Hne]; cbn [fst]; [auto|].
      destruct (String.eqb_spec bn k) as [->|Hk].
      * rewrite lookup_insert_eq. intros [= <-]. right. split; [done|]. eauto 10.
      * rewrite lookup_insert_ne by done. auto.
  - destruct (bool_decide (files !! bn = None)) eqn:Hb; cbn [fst]; [|auto].
    apply bool_decide_eq_true in Hb.
    destruct (String.eqb_spec bn "") as [->|Hne]; cbn [fst]; [auto|].
    destruct (String.eqb_spec bn k) as [->|Hk].
    * rewrite lookup_insert_eq. intros [= <-]. right. split; [done|]. eauto 10.
    * rewrite lookup_insert_ne by done. auto.
Qed.

Lemma scan_fold_sound l acc k v :
  (fold_left scan_icon l acc).1 !! k = Some v ->
  acc.1 !! k = Some v \/
  (k <> "" /\ exists name e I, v = (name, I) /\ In (name, e) l /\ file_ident e = Some I /\
    (name = (k ++ ".png")%string \/
     exists src, In src PICON_SRCS /\ name = (k ++ src ++ ".png")%string)).
Proof.
  revert acc. induction l as [|[name e] l IH]; intros [files lg] H; [by left|].
  simpl in H. destruct (IH _ H) as [H1|(Hk & n & e' & I & -> & Hin & Hf & Hn)].
  - destruct (scan_icon_lookup files lg name e k v H1) as [|(Hk & I & -> & Hf & Hn)]; [by left|].
    right. split; [done|]. exists name, e, I. split; [done|]. split; [by left|]. split; [done|].
    destruct Hn as [[? _]|]; [by left|by right].
  - right. split; [done|]. exists n, e', I. split; [done|]. split; [by right|]. done.
Qed.

(** X8.  Every inventory entry names a [.png] file of the icon directory
    that [path.isfile] accepts, with that file's identity; its key is not
    empty and is the file's base name, or the base name less one of the
    source suffixes of [PICON_SRCS]. *)
Theorem inventory_sound E k pn I :
  (makePiconFileList E).1 !! k = Some (pn, I) ->
  k <> "" /\ (exists e, In (pn, e) (chan_dir E) /\ file_ident e = Some I) /\
  (pn = (k ++ ".png")%string \/ exists src, In src PICON_SRCS /\ pn = (k ++ src ++ ".png")%string).
Proof.
  unfold makePiconFileList. intros H.
  destruct (scan_fold_sound _ _ _ _ H) as [H0|(Hk & n & e & I' & Hv & Hin & Hf & Hn)];
    [cbn [fst] in H0; by rewrite lookup_empty in H0|].
  injection Hv as <- <-. split; [done|]. split; [by exists e|done].
Qed.

Lemma scan_icon_mono files lg x k :
  is_Some (files !! k) -> is_Some ((scan_icon (files, lg) x).1 !! k).
Proof.
  intros Hk. unfold scan_icon. destruct x as [name e].
  repeat case_match; simplify_eq/=; try done; apply lookup_insert_is_Some'; by right.
Qed.

Lemma scan_icon_suffixed files lg B src e I :
  B <> "" -> In src PICON_SRCS -> file_ident e = Some I ->
  (scan_icon (files, lg) ((B ++ src ++ ".png")%string, e)).1 !! B =
    Some ((B ++ src ++ ".png")%string, I).
Proof.
  intros HB Hsrc Hf. destruct (src_split src Hsrc) as (Hs1 & Hs2 & _).
  assert (Hs : splitext (B ++ src ++ ".png") = ((B ++ src)%string, ".png")).
  { unfold splitext. rewrite <- str_app_assoc.
    rewrite (rsplit_last_app_r "."%char (B ++ src) ".png" "" ".png" eq_refl), str_app_nil_r.
    by rewrite all_dots_app, Hs2, andb_false_r. }
  assert (Hr : rsplit_last "_"%char (B ++ src) = Some (B, src)).
  { by rewrite (rsplit_last_app_r "_"%char B src "" src Hs1), str_app_nil_r. }
  assert (Hc : negb (String.eqb B "") && existsb (String.eqb src) PICON_SRCS = true).
  { apply andb_true_iff. split.
    - apply negb_true_iff. by apply String.eqb_neq.
    - apply existsb_exists. exists src. split; [done|]. apply String.eqb_refl. }
  assert (HB' : String.eqb B "" = false) by by apply String.eqb_neq.
  unfold scan_icon. rewrite Hs. cbv beta iota zeta. rewrite String.eqb_refl. cbn [negb].
  rewrite Hf. cbv beta iota zeta. rewrite Hr. cbv beta iota zeta. rewrite Hc.
  cbv beta iota zeta. destruct (files !! B) as [[]|]; cbv beta iota zeta; rewrite HB';
    cbn [fst]; apply lookup_insert_eq.
Qed.

Lemma scan_fold_keep l acc B v :
  acc.1 !! B = Some v ->
  (forall n' e' src', In (n', e') l -> In src' PICON_SRCS -> file_ident e' <> None ->
     n' <> (B ++ src' ++ ".png")%string) ->
  (fold_left scan_icon l acc).1 !! B = Some v.
Proof.
  revert acc. induction l as [|[name e] l IH]; intros [files lg] HB Hl; [done|].
  cbn [fold_left]. apply IH; [|intros; apply (Hl n' e' src'); [by right|done|done]].
  destruct (scan_icon_mono files lg (name, e) B) as [v' Hv']; [by exists v|].
  rewrite Hv'. destruct (scan_icon_lookup files lg name e B v' Hv')
    as [H|(_ & I & -> & Hf & [[_ Hn]|(src & Hs & ->)])].
  - simpl in HB. congruence.
  - simpl in HB. congruence.
  - exfalso. apply (Hl (B ++ src ++ ".png")%string e src); [by left|done|congruence|done].
Qed.

(** X9.  A file [B ++ src ++ ".png"] with a source suffix [src] of
    [PICON_SRCS] and [B] not empty owns the key [B] when no file listed
    after it has the name [B], another source suffix and [.png]: a
    suffixed file replaces an earlier entry of its key, whether that came
    from a suffixed file or from [B.png], and [B.png] listed later does
    not replace it. *)
Theorem inventory_suffixed_last E l1 l2 B src e I :
  chan_dir E = (l1 ++ ((B ++ src ++ ".png")%string, e) :: l2)%list ->
  B <> "" -> In src PICON_SRCS -> file_ident e = Some I ->
  (forall n' e' src', In (n', e') l2 -> In src' PICON_SRCS -> file_ident e' <> None ->
     n' <> (B ++ src' ++ ".png")%string) ->
  (makePiconFileList E).1 !! B = Some ((B ++ src ++ ".png")%string, I).
Proof.
  intros Hc HB Hs Hf Hl. unfold makePiconFileList. rewrite Hc, fold_left_app. cbn [fold_left].
  destruct (fold_left scan_icon l1 (∅, [])) as [files lg].
  apply scan_fold_keep; [|done]. by apply scan_icon_suffixed.
Qed.

Lemma inventory_sound_witness :
  (makePiconFileList env_sbs).1 !! "abc" = Some ("abc_sbs.png", (0, 1)%N) /\
  "abc" <> "" /\ (exists e, In ("abc_sbs.png", e) (chan_dir env_sbs) /\ file_ident e = Some (0, 1)%N) /\
  ("abc_sbs.png" = ("abc" ++ ".png")%string \/
   exists src, In src PICON_SRCS /\ "abc_sbs.png" = ("abc" ++ src ++ ".png")%string).
Proof.
  assert (H : (makePiconFileList env_sbs).1 !! "abc" = Some ("abc_sbs.png", (0, 1)%N))
    by (vm_compute; reflexivity).
  split; [exact H|]. exact (inventory_sound env_sbs "abc" "abc_sbs.png" (0, 1)%N H).
Defined.

Lemma inventory_suffixed_last_witness :
  (makePiconFileList env_sfx).1 !! "abc" = Some (("abc" ++ "_sbs" ++ ".png")%string, (0, 1)%N).
Proof.
  apply (inventory_suffixed_last env_sfx [("abc_fv.png", EReg (0, 3)%N)] [("abc.png", EReg (0, 2)%N)]
           "abc" "_sbs" (EReg (0, 1)%N)).
  - reflexivity.
  - discriminate.
  - simpl. intuition.
  - reflexivity.
  - intros n' e' src' Hin Hs _. destruct Hin as [Heq|[]]. injection Heq as <- _.
    repeat (destruct Hs as [<-|Hs]; [vm_compute; discriminate|]). destruct Hs.
Defined.

(** ** The picon set name of the constructor *)

Lemma rsplit_none_cons c a t : rsplit_last c (String a t) = None ->
  rsplit_last c t = None /\ Ascii.eqb a c = false.
Proof.
  simpl. destruct (rsplit_last c t) as [[]|]; [done|]. by destruct (Ascii.eqb a c).
Qed.

Lemma rsplit_slash_tail b : rsplit_last "/"%char b = None ->
  rsplit_last "/"%char ("/" ++ b) = Some ("", ("/" ++ b)%string).
Proof. intros Hb. change ("/" ++ b)%string with (String "/"%char b). simpl. by rewrite Hb. Qed.

Lemma rstrip_slash_dir d : rsplit_last "/"%char d = None -> rstrip_slash (d ++ "/") = d.
Proof.
  induction d as [|a d IH]; [done|]. intros Hd. apply rsplit_none_cons in Hd as [Hd Ha].
  rewrite str_app_cons. simpl. rewrite (IH Hd), Ha, andb_false_r. done.
Qed.

Lemma rstrip_slash_app s t : rstrip_slash t <> "" -> rstrip_slash (s ++ t) = (s ++ rstrip_slash t)%string.
Proof.
  intros Ht. induction s as [|a s IH]; [done|]. rewrite !str_app_cons. simpl. rewrite IH.
  destruct (String.eqb_spec (s ++ rstrip_slash t) "") as [He|]; [|done].
  exfalso. apply Ht. destruct s; [done|discriminate].
Qed.

Lemma all_slash_app s t : all_slash (s ++ t) = all_slash s && all_slash t.
Proof. induction s as [|a s IH]; [done|]. rewrite str_app_cons. simpl. by rewrite IH, andb_assoc. Qed.

Lemma all_slash_dir d : d <> "" -> rsplit_last "/"%char d = None -> all_slash d = false.
Proof.
  destruct d as [|a d]; [done|]. intros _ Hd. apply rsplit_none_cons in Hd as [_ Ha].
  simpl. by rewrite Ha.
Qed.

(** [path.split] of [p ++ "/" ++ b] for a last component [b]. *)
Lemma path_split_last p b : rsplit_last "/"%char b = None ->
  path_split (p ++ "/" ++ b) =
    (if all_slash (p ++ "/") then (p ++ "/")%string else rstrip_slash (p ++ "/"), b).
Proof.
  intros Hb. unfold path_split.
  rewrite (rsplit_last_app_r _ p ("/" ++ b) "" ("/" ++ b) (rsplit_slash_tail b Hb)), str_app_nil_r.
  change ("/" ++ b)%string with (String "/"%char b). done.
Qed.

(** X10.  For a directory component [d] (not empty, without [/]) followed
    by a last component [b] (without [/], possibly empty), the picon set
    is [d], with or without a leading path [x]. *)
Theorem piconSet_dir x d b :
  d <> "" -> rsplit_last "/"%char d = None -> rsplit_last "/"%char b = None ->
  piconSet (d ++ "/" ++ b) = d /\ piconSet (x ++ "/" ++ d ++ "/" ++ b) = d.
Proof.
  intros Hd Hd' Hb. unfold piconSet, init_path. split.
  - rewrite (proj2 (String.eqb_neq _ _)) by (destruct d; discriminate).
    rewrite (path_split_last d b Hb), all_slash_app, (all_slash_dir d Hd Hd').
    simpl andb. cbv iota. rewrite (rstrip_slash_dir d Hd').
    rewrite (proj2 (String.eqb_neq _ _)) by done. simpl negb. cbv iota.
    unfold path_split. by rewrite Hd'.
  - rewrite (proj2 (String.eqb_neq _ _)) by (destruct x; discriminate).
    rewrite <- (str_app_assoc x "/" (d ++ "/" ++ b)), <- (str_app_assoc (x ++ "/") d ("/" ++ b)).
    rewrite (path_split_last ((x ++ "/") ++ d) b Hb).
    rewrite all_slash_app, all_slash_app, (all_slash_dir d Hd Hd'), andb_false_r. simpl andb.
    cbv iota. rewrite str_app_assoc, (rstrip_slash_app (x ++ "/") (d ++ "/")), (rstrip_slash_dir d Hd')
      by (rewrite (rstrip_slash_dir d Hd'); done).
    rewrite (proj2 (String.eqb_neq _ _)) by (destruct x; discriminate). simpl negb. cbv iota.
    rewrite str_app_assoc.
    unfold path_split. rewrite (rsplit_last_app_r _ x ("/" ++ d) "" ("/" ++ d) (rsplit_slash_tail d Hd')).
    done.
Qed.

Lemma piconSet_dir_witness :
  (piconSet ("flatPicons" ++ "/" ++ "picon") = "flatPicons" /\
   piconSet ("build" ++ "/" ++ "flatPicons" ++ "/" ++ "picon") = "flatPicons") /\
  title ("flatPicons" ++ "/" ++ "picon") = "Australian picons, white background".
Proof.
  split; [|vm_compute; reflexivity].
  apply (piconSet_dir "build" "flatPicons" "picon").
  - discriminate.
  - vm_compute. reflexivity.
  - vm_compute. reflexivity.
Defined.

End Extras.
